(** * Assigned-collaborator federated learning: weights and round loops

    A shallow embedding of [src/algos/fl_assigned.py]: the collaborator
    weight strategies of [FedAssClient.get_collaborator_weights], the
    client round loop [FedAssClient.run_protocol] and the coordinator
    [FedAssServer].

    Conventions of the embedding.
    - Python integers are [Z]; node identities and rounds are integers.
    - Python floats that hold weights and accuracies are exact rationals
      [Q].  The float arithmetic of the peer computation (lines 25-27) is
      carried out on integers wherever binary64 arithmetic is exact on the
      integers involved; beyond that range its result is the rounding of
      the float library, which the embedding takes from [FloatLib].
    - A Python [dict] is an association list in insertion order with
      unique keys ([PyDict]); iteration visits it in that order.
    - Exceptions are values of [exn]; a computation that may raise returns
      a [result]; the round loops run in a state-and-exception monad whose
      state carries the model and the trace of calls to the external
      collaborators (messenger, trainer, logger, persistence). *)

From Stdlib Require Import ZArith QArith Qabs Lia.
From stdpp Require Import base list strings.

Local Open Scope Z_scope.

(** ** Exceptions and results *)

Inductive exn : Type :=
  | ValueError (msg : string)
  | ZeroDivisionError
  | KeyError
  | IndexError
  | OverflowError (msg : string).

Inductive result (A : Type) : Type :=
  | Ok (a : A)
  | Raise (e : exn).
Arguments Ok {A} a.
Arguments Raise {A} e.

#[global] Instance result_ret : MRet result := @Ok.
#[global] Instance result_bind : MBind result := λ A B f m,
  match m with
  | Ok a => f a
  | Raise e => Raise e
  end.

(** [for x in xs: acc = f acc x], stopping at the first exception. *)
Fixpoint foldM {A B : Type} (f : B → A → result B) (acc : B) (xs : list A)
  : result B :=
  match xs with
  | [] => Ok acc
  | x :: xs' => acc' ← f acc x; foldM f acc' xs'
  end.

(** A comprehension [[f x for x in xs]] whose body may raise. *)
Fixpoint mapM_result {A B : Type} (f : A → result B) (xs : list A)
  : result (list B) :=
  match xs with
  | [] => Ok []
  | x :: xs' => y ← f x; ys ← mapM_result f xs'; Ok (y :: ys)
  end.

(** ** Python dictionaries keyed by integers *)

Module PyDict.
Section dict.
Context {V : Type}.

Definition t : Type := list (Z * V).

Definition empty : t := [].

(** [d[k] = v]: an existing key keeps its position, a new key goes last. *)
Fixpoint set (k : Z) (v : V) (d : t) : t :=
  match d with
  | [] => [(k, v)]
  | (k', v') :: d' =>
      if decide (k' = k) then (k, v) :: d' else (k', v') :: set k v d'
  end.

(** [d[k]], raising [KeyError] when the key is absent. *)
Fixpoint get (k : Z) (d : t) : result V :=
  match d with
  | [] => Raise KeyError
  | (k', v') :: d' => if decide (k' = k) then Ok v' else get k d'
  end.

Definition keys (d : t) : list Z := d.*1.
Definition values (d : t) : list V := d.*2.

(** [{k: v for k in ks}] *)
Definition of_keys (ks : list Z) (v : V) : t :=
  foldl (λ d k, set k v d) empty ks.
End dict.
Arguments t : clear implicits.
End PyDict.

(** ** Run configuration *)

(** The keys of [self.config] read by the algorithm.  [start_round] is
    read with [config.get("start_round", 0)] and may be absent. *)
Record Config : Type := {
  strategy : string;
  num_users : Z;
  assigned_collaborators : PyDict.t (list Z);
  start_round : option Z;
  rounds : Z;
  epochs_per_round : Z;
  T_0 : Z;
  target_users_before_T_0 : Z;
  target_users_after_T_0 : Z;
}.

(** ** Numeric primitives *)

(** *** Binary64 arithmetic

    Lines 25-27 compute on floats: [math.log2] and [math.pow] return
    floats, [self.node_id + steps], the remainder and [+ 1] are float
    operations, and [int] converts back.  On integers of magnitude up to
    [2^53] every one of these operations but the logarithm is exact, and
    the floor of the logarithm of an integer below [2^47] is the integer
    logarithm (the gap to the next power of two exceeds one unit in the
    last place of the result there).  Outside these ranges the outcome
    is that of the float library: the rounded logarithm, the rounded sums,
    and the exceptions of an overflow or of a NaN reaching [int]. *)

(** What lines 26-27 can yield: an integer, an [OverflowError]
    ([math.pow] out of range, an integer too large for a float), or the
    [ValueError] of [int] on a NaN. *)
Inductive float_outcome : Type :=
  | FloatInt (z : Z)
  | FloatOverflow (msg : string)
  | FloatNaN.

(** The float library outside the exact range: [libm_floor_log2 x] is
    [math.floor(math.log2(x))] for an integer [x ≥ 2^47], and
    [float_collab_id node_id power num_users] is the outcome of
    [int(((node_id + math.pow(2, power)) % num_users) + 1)] when one of
    its operands is beyond the exact range. *)
Class FloatLib : Type := {
  libm_floor_log2 : Z → Z;
  float_collab_id : Z → Z → Z → float_outcome;
}.

(** The integers on which [math.floor(math.log2(x))] is the integer
    logarithm whatever the float library rounds. *)
Definition log2_exact_bound : Z := 2 ^ 47.

(** The operands on which lines 26-27 are exact: with [2^power], the
    node identity and the number of users of magnitude at most [2^52],
    the sum stays within [2^53] and every float operation is exact. *)
Definition float_exact_bound : Z := 2 ^ 52.

(** [math.floor(math.log2(x))] on an integer argument. *)
Definition floor_log2 `{!FloatLib} (x : Z) : result Z :=
  if decide (x ≤ 0) then Raise (ValueError "math domain error")
  else if decide (x < log2_exact_bound) then Ok (Z.log2 x)
  else Ok (libm_floor_log2 x).

(** [a % b]; Python's remainder has the sign of the divisor, as [Z.modulo]. *)
Definition py_mod (a b : Z) : result Z :=
  if decide (b = 0) then Raise ZeroDivisionError else Ok (a mod b).

(** [w / total] on integers: true division. *)
Definition true_div (w total : Z) : result Q :=
  if decide (total = 0) then Raise ZeroDivisionError
  else Ok (inject_Z w / inject_Z total)%Q.

(** [sum(xs)] on integers. *)
Definition sum_Z (xs : list Z) : Z := foldl Z.add 0 xs.

(** [sum(xs)] on weights. *)
Definition sum_Q (xs : list Q) : Q := foldl Qplus 0%Q xs.

(** [np.random.choice(a, size=size, replace=False)].  The generator's
    outcome is the list [draw] of positions of [a] it picked, in order;
    without replacement these are [size] distinct positions. *)
Definition np_random_choice (a : list Z) (size : Z) (draw : list nat)
  : result (list Z) :=
  if decide (a = [] ∧ size ≠ 0) then
    Raise (ValueError "'a' cannot be empty unless no samples are taken")
  else if decide (Z.of_nat (length a) < size) then
    Raise (ValueError
      "Cannot take a larger sample than population when 'replace=False'")
  else if decide (size < 0) then
    Raise (ValueError "Negative dimensions are not allowed")
  else Ok ((λ i, nth i a 0) <$> draw).

(** What the generator may return for a population of [n] and a request
    of [size]: [size] distinct positions below [n]. *)
Definition valid_draw (n : nat) (size : Z) (draw : list nat) : Prop :=
  NoDup draw ∧ Forall (λ i, (i < n)%nat) draw ∧ Z.of_nat (length draw) = size.

(** ** State-and-exception monad of the round loops *)

(** A computation reads and updates a state of type [S]; when it raises,
    the state reached so far is kept, so that the calls made before the
    exception stay visible in the trace. *)
Definition M (S A : Type) : Type := S → result A * S.

#[global] Instance M_ret {S} : MRet (M S) := λ A a s, (Ok a, s).
#[global] Instance M_bind {S} : MBind (M S) := λ A B f m s,
  match m s with
  | (Ok a, s') => f a s'
  | (Raise e, s') => (Raise e, s')
  end.

(** A pure, possibly raising, computation inside a round loop. *)
Definition lift {S A : Type} (r : result A) : M S A := λ s, (r, s).

(** Read a component of the state. *)
Definition gets {S A : Type} (f : S → A) : M S A := λ s, (Ok (f s), s).

(** [for x in xs: body(x)] *)
Fixpoint for_each {S A : Type} (body : A → M S unit) (xs : list A)
  : M S unit :=
  match xs with
  | [] => mret tt
  | x :: xs' => _ ← body x; for_each body xs'
  end.

(** [range(a, b)] *)
Definition py_range (a b : Z) : list Z := seqZ a (b - a).

(** ** Messages and round statistics *)

Inductive Tag : Type := ROUND_START | REPR_ADVERT | REPRS_SHARE | ROUND_STATS.

(** A value stored in the [stats] dictionary: a float, or the numpy
    vector of collaborator weights. *)
Inductive stat_value : Type :=
  | Scalar (x : Q)
  | Vector (v : list Q).

(** The [stats] dictionary, keyed by metric name, in insertion order. *)
Definition Stats : Type := list (string * stat_value).

(** [stats[key] = v] *)
Fixpoint stats_set (key : string) (v : stat_value) (stats : Stats) : Stats :=
  match stats with
  | [] => [(key, v)]
  | (key', v') :: stats' =>
      if decide (key' = key) then (key, v) :: stats'
      else (key', v') :: stats_set key v stats'
  end.

(** [stats[key]] *)
Fixpoint stats_get (key : string) (stats : Stats) : result stat_value :=
  match stats with
  | [] => Raise KeyError
  | (key', v') :: stats' =>
      if decide (key' = key) then Ok v' else stats_get key stats'
  end.

(** [np.zeros(n)] *)
Definition np_zeros (n : Z) : result (list Q) :=
  if decide (n < 0) then
    Raise (ValueError "negative dimensions are not allowed")
  else Ok (replicate (Z.to_nat n) 0%Q).

(** [vec[i] = v] on a numpy vector: a negative index counts from the
    end, an index outside [-len, len) raises [IndexError]. *)
Definition np_setitem (vec : list Q) (i : Z) (v : Q) : result (list Q) :=
  let n := Z.of_nat (length vec) in
  if decide (0 ≤ i < n) then Ok (<[Z.to_nat i := v]> vec)
  else if decide (- n ≤ i < 0) then Ok (<[Z.to_nat (n + i) := v]> vec)
  else Raise IndexError.

(** [a > b] on floats. *)
Definition Qgt_bool (a b : Q) : bool := negb (Qle_bool a b).

(** ** External collaborators of a client

    [aggregate], [set_model_weights], [local_test] and [local_train] are
    methods of the base class; they are the training collaborator of the
    protocol, and the embedding is parametric in them.  [set_weights cur
    avg] is the model after [set_model_weights(avg, keys_to_ignore)] on a
    node whose model was [cur]; [local_train cur epochs] is the trained
    model with the reported loss and accuracy. *)
Class Trainer (Repr : Type) : Type := {
  aggregate : PyDict.t Repr → PyDict.t Q → Repr;
  set_weights : Repr → Repr → Repr;
  local_test : Repr → Q;
  local_train : Repr → Z → Repr * (Q * Q);
}.

(** What reaches a client from outside in round [r]: the representations
    the coordinator shares, and the positions the random generator
    draws. *)
Record Env (Repr : Type) : Type := {
  reprs_share : Z → list Repr;
  rng : Z → list nat;
}.
Arguments reprs_share {Repr} _ _.
Arguments rng {Repr} _ _.

Module FedAssClient.

(** *** Collaborator weights (lines 16-44) *)

(** Lines 26-27:
    [steps = math.pow(2, power)] and
    [collab_id = int(((self.node_id + steps) % num_users) + 1)]. *)
Definition direct_expo_collab_id `{!FloatLib} (node_id power num_users : Z)
  : result Z :=
  if decide (0 ≤ power ≤ 52
             ∧ - float_exact_bound ≤ node_id ≤ float_exact_bound
             ∧ - float_exact_bound ≤ num_users ≤ float_exact_bound) then
    let steps := 2 ^ power in
    r ← py_mod (node_id + steps) num_users;
    Ok (r + 1)
  else
    match float_collab_id node_id power num_users with
    | FloatInt collab_id => Ok collab_id
    | FloatOverflow msg => Raise (OverflowError msg)
    | FloatNaN => Raise (ValueError "cannot convert float NaN to integer")
    end.

(** Lines 20-40: the raw weights of the chosen strategy. *)
Definition strategy_weights `{!FloatLib} (cfg : Config) (node_id num_collaborator round : Z)
    (draw : list nat) : result (PyDict.t Z) :=
  if decide (strategy cfg = "fixed") then
    assigned ← PyDict.get node_id (assigned_collaborators cfg);
    Ok (PyDict.of_keys assigned 1)
  else if decide (strategy cfg = "direct_expo") then
    period ← floor_log2 (num_users cfg - 1);
    power ← py_mod round period;
    collab_id ← direct_expo_collab_id node_id power (num_users cfg);
    Ok (PyDict.set collab_id 1 (PyDict.set node_id 1 PyDict.empty))
  else if decide (strategy cfg = "random_among_assigned") then
    assigned ← PyDict.get node_id (assigned_collaborators cfg);
    sample ← np_random_choice assigned num_collaborator draw;
    Ok (PyDict.set node_id 1 (PyDict.of_keys sample 1))
  else Raise (ValueError "Strategy not implemented").

(** Lines 42-43: divide every raw weight by the sum of the raw weights. *)
Definition normalize (collab_weights : PyDict.t Z) : result (PyDict.t Q) :=
  let total := sum_Z (PyDict.values collab_weights) in
  mapM_result (λ '(id, w), q ← true_div w total; Ok (id, q)) collab_weights.

Definition get_collaborator_weights `{!FloatLib} (cfg : Config)
    (node_id num_collaborator round : Z) (draw : list nat)
  : result (PyDict.t Q) :=
  collab_weights ← strategy_weights cfg node_id num_collaborator round draw;
  normalize collab_weights.

(** *** The round loop (lines 49-110) *)

Section round_loop.
Context {Repr : Type} `{!Trainer Repr} {float_lib : FloatLib}.

(** Calls to the messenger and to the training collaborator, as they
    appear in the trace. *)
Inductive Event : Type :=
  | Receive (tag : Tag)
  | SendRepr (tag : Tag) (data : Repr)
  | SendStats (tag : Tag) (data : Stats)
  | Aggregate (models_wts : PyDict.t Repr) (collab_weights : PyDict.t Q)
  | SetModelWeights (avg_wts : Repr)
  | LocalTest
  | LocalTrain (epochs : Z).

Record State : Type := {
  model : Repr;
  trace : list Event;
}.

Definition emit (e : Event) : M State unit :=
  λ s, (Ok tt, {| model := model s; trace := trace s ++ [e] |}).

(** [self.comm_utils.receive(node_ids=self.server_node, tag=tag)] *)
Definition receive {A : Type} (tag : Tag) (data : A) : M State A :=
  _ ← emit (Receive tag); mret data.

(** Line 46 *)
Definition get_representation : M State Repr := gets model.

Definition call_aggregate (models_wts : PyDict.t Repr)
    (collab_weights : PyDict.t Q) : M State Repr :=
  _ ← emit (Aggregate models_wts collab_weights);
  mret (aggregate models_wts collab_weights).

Definition call_set_model_weights (avg_wts : Repr) : M State unit :=
  λ s, (Ok tt, {| model := set_weights (model s) avg_wts;
                  trace := trace s ++ [SetModelWeights avg_wts] |}).

Definition call_local_test : M State Q :=
  _ ← emit LocalTest; gets (λ s, local_test (model s)).

Definition call_local_train (epochs : Z) : M State (Q * Q) :=
  λ s, let '(m, out) := local_train (model s) epochs in
       (Ok out, {| model := m; trace := trace s ++ [LocalTrain epochs] |}).

(** [{k: v for k, v in enumerate(reprs, 1)}] (line 71) *)
Definition enumerate1 (reprs : list Repr) : PyDict.t Repr :=
  imap (λ i v, (Z.of_nat (S i), v)) reprs.

(** Lines 73-75 *)
Definition num_collaborator (cfg : Config) (round : Z) : Z :=
  if decide (round < T_0 cfg) then target_users_before_T_0 cfg
  else target_users_after_T_0 cfg.

(** Line 80 *)
Definition collaborators (collab_weights_dict : PyDict.t Q) : list Z :=
  (filter (λ kw, Qgt_bool kw.2 0 = true) collab_weights_dict).*1.

(** The test of line 82:
    [len(collaborators) == 1 and collaborators[0] == self.node_id] *)
Definition only_self (node_id : Z) (collabs : list Z) : bool :=
  bool_decide (length collabs = 1%nat) &&
  bool_decide (collabs !! 0%nat = Some node_id).

(** Lines 80-94: aggregate, unless the node is its only collaborator. *)
Definition aggregate_step (node_id : Z) (reprs_dict : PyDict.t Repr)
    (collab_weights_dict : PyDict.t Q) : M State unit :=
  if negb (only_self node_id (collaborators collab_weights_dict)) then
    avg_wts ← call_aggregate reprs_dict collab_weights_dict;
    call_set_model_weights avg_wts
  else mret tt.

(** Lines 96-101: test, train, test again; the results go into [stats]. *)
Definition train_step (epochs : Z) (stats : Stats) : M State Stats :=
  acc_before ← call_local_test;
  let stats := stats_set "test_acc_before_training" (Scalar acc_before) stats in
  '(train_loss, train_acc) ← call_local_train epochs;
  let stats := stats_set "train_loss" (Scalar train_loss) stats in
  let stats := stats_set "train_acc" (Scalar train_acc) stats in
  acc_after ← call_local_test;
  mret (stats_set "test_acc_after_training" (Scalar acc_after) stats).

(** Lines 104-106 *)
Definition collab_weight_vector (n : Z) (collab_weights_dict : PyDict.t Q)
  : result (list Q) :=
  collab_weight ← np_zeros n;
  foldM (λ vec '(k, v), np_setitem vec (k - 1) v)
        collab_weight collab_weights_dict.

(** Lines 104-110 *)
Definition report_step (cfg : Config) (collab_weights_dict : PyDict.t Q)
    (stats : Stats) : M State unit :=
  collab_weight ← lift (collab_weight_vector (num_users cfg) collab_weights_dict);
  emit (SendStats ROUND_STATS
          (stats_set "collab_weights" (Vector collab_weight) stats)).

(** The body of the loop of line 54. *)
Definition client_round (env : Env Repr) (cfg : Config) (node_id round : Z)
  : M State unit :=
  let stats : Stats := [] in
  _ ← receive ROUND_START tt;
  repr ← get_representation;
  _ ← emit (SendRepr REPR_ADVERT repr);
  reprs ← receive REPRS_SHARE (reprs_share env round);
  let reprs_dict := enumerate1 reprs in
  let num_collaborator := num_collaborator cfg round in
  collab_weights_dict ←
    lift (get_collaborator_weights cfg node_id num_collaborator round
            (rng env round));
  _ ← aggregate_step node_id reprs_dict collab_weights_dict;
  stats ← train_step (epochs_per_round cfg) stats;
  report_step cfg collab_weights_dict stats.

(** Lines 49-110.  Console printing is not part of the trace. *)
Definition run_protocol (env : Env Repr) (cfg : Config) (node_id : Z)
  : M State unit :=
  let start_round := default 0 (start_round cfg) in
  let total_rounds := rounds cfg in
  for_each (client_round env cfg node_id) (py_range start_round total_rounds).
End round_loop.
Arguments Event : clear implicits.
Arguments State : clear implicits.

End FedAssClient.


(** ** The coordinator *)

(** External collaborators of the coordinator: the evaluation of the
    server's model ([model_utils.test], giving loss and accuracy) and the
    reshaping of the history of round statistics
    ([from_round_stats_per_round_per_client_to_dict_arrays], with the
    assignment [stats_dict["round_step"] = 1]). *)
Class ServerUtils (SModel StatsDict : Type) : Type := {
  model_utils_test : SModel → Q * Q;
  to_dict_arrays : list (list Stats) → StatsDict;
  set_round_step : StatsDict → Z → StatsDict;
}.

(** What the two all-gathers of round [r] deliver. *)
Record ServerEnv (Repr : Type) : Type := {
  gather_reprs : Z → list Repr;
  gather_stats : Z → list Stats;
}.
Arguments gather_reprs {Repr} _ _.
Arguments gather_stats {Repr} _ _.

Module FedAssServer.
Section server.
Context {Repr SModel StatsDict : Type} `{!ServerUtils SModel StatsDict}.

(** The attributes of the server that no method changes: the client
    nodes, the model and the checkpoint path (lines 119-123). *)
Record Server : Type := {
  users : list Z;
  smodel : SModel;
  model_save_path : string;
}.

Inductive Message : Type :=
  | Text (s : string)
  | StartingRound (round : Z)
  | RoundAcc (label : string) (accs : list stat_value).

Inductive Event : Type :=
  | Send (dest : Z) (tag : Tag) (data : option (list Repr))
  | AllGather (tag : Tag)
  | LogConsole (msg : Message)
  | LogTbRoundStats (round_stats : list Stats) (excluded : list string)
      (round : Z)
  | ModelTest
  | SaveModel (path : string)
  | LogExperimentsStats (stats_dict : StatsDict)
  | PlotExperimentsStats (stats_dict : StatsDict).

Record State : Type := {
  best_acc : Q;
  round : Z;
  trace : list Event;
}.

Definition emit (e : Event) : M State unit :=
  λ s, (Ok tt, {| best_acc := best_acc s; round := round s;
                  trace := trace s ++ [e] |}).

Definition set_best_acc (acc : Q) : M State unit :=
  λ s, (Ok tt, {| best_acc := acc; round := round s; trace := trace s |}).

Definition set_round (r : Z) : M State unit :=
  λ s, (Ok tt, {| best_acc := best_acc s; round := r; trace := trace s |}).

Definition all_gather {A : Type} (tag : Tag) (data : A) : M State A :=
  _ ← emit (AllGather tag); mret data.

(** Lines 125-136 *)
Definition test (srv : Server) : M State Q :=
  _ ← emit ModelTest;
  let '(test_loss, acc) := model_utils_test (smodel srv) in
  best ← gets best_acc;
  _ ← (if Qgt_bool acc best then
         _ ← set_best_acc acc;
         emit (SaveModel (model_save_path srv))
       else mret tt);
  mret acc.

(** Modelled from the spec: [send_representations] is a method of the
    base class, which is not part of the sources.  Per the spec's
    REBROADCAST_REPRS it sends the complete ordered set of gathered
    representations to every client, on the channel [REPRS_SHARE]. *)
Definition send_representations (srv : Server) (models : list Repr)
  : M State unit :=
  for_each (λ client_node, emit (Send client_node REPRS_SHARE (Some models)))
           (users srv).

(** Lines 138-171 *)
Definition single_round (env : ServerEnv Repr) (srv : Server)
  : M State (list Stats) :=
  _ ← for_each (λ client_node, emit (Send client_node ROUND_START None))
               (users srv);
  _ ← emit (LogConsole
              (Text "Server waiting for all clients to finish local training"));
  r ← gets round;
  models ← all_gather REPR_ADVERT (gather_reprs env r);
  _ ← emit (LogConsole (Text "Server received all clients models"));
  _ ← send_representations srv models;
  round_stats ← all_gather ROUND_STATS (gather_stats env r);
  _ ← emit (LogConsole (Text "Server received all clients stats"));
  _ ← emit (LogTbRoundStats round_stats ["collab_weights"] r);
  talt ← lift (mapM_result (stats_get "test_acc_after_training") round_stats);
  _ ← emit (LogConsole (RoundAcc "Round acc TALT" talt));
  tblt ← lift (mapM_result (stats_get "test_acc_before_training") round_stats);
  _ ← emit (LogConsole (RoundAcc "Round acc TBLT" tblt));
  mret round_stats.

(** The loop of lines 180-185, with the list [stats] as accumulator. *)
Fixpoint round_loop (env : ServerEnv Repr) (srv : Server)
    (stats : list (list Stats)) (rs : list Z) : M State (list (list Stats)) :=
  match rs with
  | [] => mret stats
  | r :: rs' =>
      _ ← set_round r;
      _ ← emit (LogConsole (StartingRound r));
      round_stats ← single_round env srv;
      round_loop env srv (stats ++ [round_stats]) rs'
  end.

(** Lines 173-190 *)
Definition run_protocol (env : ServerEnv Repr) (cfg : Config) (srv : Server)
  : M State unit :=
  _ ← emit (LogConsole (Text "Starting random P2P collaboration"));
  let start_round := default 0 (start_round cfg) in
  let total_round := rounds cfg in
  stats ← round_loop env srv [] (py_range start_round total_round);
  let stats_dict := to_dict_arrays stats in
  let stats_dict := set_round_step stats_dict 1 in
  _ ← emit (LogExperimentsStats stats_dict);
  emit (PlotExperimentsStats stats_dict).
End server.
Arguments Server : clear implicits.
Arguments Message : clear implicits.
Arguments Event : clear implicits.
Arguments State : clear implicits.
End FedAssServer.

(** ** Observations on runs *)



(** A run is rejected before any round executes when it stops with an
    exception in the very state it started from: nothing was received,
    sent, aggregated or trained. *)
Definition rejected_before_rounds {Repr : Type} `{!Trainer Repr} `{!FloatLib}
    (env : Env Repr) (cfg : Config) (node_id : Z)
    (s : FedAssClient.State Repr) : Prop :=
  ∃ e, FedAssClient.run_protocol env cfg node_id s = (Raise e, s).

(** The messages a client exchanges in a round before it computes its
    collaborator weights (lines 58-68). *)
Definition exchange_events {Repr : Type} (repr : Repr)
  : list (FedAssClient.Event Repr) :=
  [FedAssClient.Receive ROUND_START;
   FedAssClient.SendRepr REPR_ADVERT repr;
   FedAssClient.Receive REPRS_SHARE].

(** The calls of lines 96-101. *)
Definition training_events {Repr : Type} (epochs : Z)
  : list (FedAssClient.Event Repr) :=
  [FedAssClient.LocalTest; FedAssClient.LocalTrain epochs;
   FedAssClient.LocalTest].

(** The entries of [stats] written by lines 96-101 on a node whose model
    is [m] when the training step starts. *)
Definition training_stats {Repr : Type} `{!Trainer Repr} (m : Repr) (epochs : Z)
  : Stats :=
  [("test_acc_before_training", Scalar (local_test m));
   ("train_loss", Scalar (local_train m epochs).2.1);
   ("train_acc", Scalar (local_train m epochs).2.2);
   ("test_acc_after_training", Scalar (local_test (local_train m epochs).1))].

(** The calls of the coordinator that evaluate its model or save a
    checkpoint. *)
Definition is_evaluation {Repr StatsDict : Type}
    (e : FedAssServer.Event Repr StatsDict) : bool :=
  match e with
  | FedAssServer.ModelTest | FedAssServer.SaveModel _ => true
  | _ => false
  end.

(** The running maximum is tracked in a run when, the accuracy of the
    server's model exceeding the best accuracy so far and at least one
    round being run, the run ends with the best accuracy updated and a
    checkpoint saved. *)
Definition tracks_best_accuracy {Repr SModel StatsDict : Type}
    `{!ServerUtils SModel StatsDict}
    (env : ServerEnv Repr) (cfg : Config) (srv : FedAssServer.Server SModel)
    (s : FedAssServer.State Repr StatsDict) : Prop :=
  let acc := (model_utils_test (FedAssServer.smodel srv)).2 in
  let s' := (FedAssServer.run_protocol env cfg srv s).2 in
  default 0 (start_round cfg) < rounds cfg →
  (FedAssServer.best_acc s < acc)%Q →
  (FedAssServer.best_acc s' == acc)%Q ∧
  FedAssServer.SaveModel (FedAssServer.model_save_path srv)
    ∈ FedAssServer.trace s'.

(** [s'] extends [s] without evaluation: same best accuracy, and only
    calls other than the model test and the checkpoint save added. *)
Definition unevaluated {Repr StatsDict : Type}
    (s s' : FedAssServer.State Repr StatsDict) : Prop :=
  FedAssServer.best_acc s' = FedAssServer.best_acc s ∧
  ∃ evs, FedAssServer.trace s' = FedAssServer.trace s ++ evs ∧
         Forall (λ e, is_evaluation e = false) evs.

(** A computation of the coordinator that never evaluates. *)
Definition preserves {Repr StatsDict A : Type}
    (m : M (FedAssServer.State Repr StatsDict) A) : Prop :=
  ∀ s, unevaluated s (m s).2.

(** ** Further observations on client runs *)

(** The calls in which a client reports its round statistics. *)
Definition is_report {Repr : Type} (e : FedAssClient.Event Repr) : bool :=
  match e with
  | FedAssClient.SendStats _ _ => true
  | _ => false
  end.

(** The calls in which a client trains. *)
Definition is_training {Repr : Type} (e : FedAssClient.Event Repr) : bool :=
  match e with
  | FedAssClient.LocalTrain _ => true
  | _ => false
  end.

Definition reports {Repr : Type} (tr : list (FedAssClient.Event Repr)) : nat :=
  length (filter (λ e, is_report e = true) tr).

Definition trainings {Repr : Type} (tr : list (FedAssClient.Event Repr)) : nat :=
  length (filter (λ e, is_training e = true) tr).

(** The calls made by the aggregation step of lines 80-94, and the model
    it leaves, on a node whose model is [m]. *)
Definition blend_events {Repr : Type} `{!Trainer Repr} (node_id : Z)
    (reprs_dict : PyDict.t Repr) (cw : PyDict.t Q)
  : list (FedAssClient.Event Repr) :=
  if negb (FedAssClient.only_self node_id (FedAssClient.collaborators cw)) then
    [FedAssClient.Aggregate reprs_dict cw;
     FedAssClient.SetModelWeights (aggregate reprs_dict cw)]
  else [].

Definition blended_model {Repr : Type} `{!Trainer Repr} (node_id : Z)
    (reprs_dict : PyDict.t Repr) (cw : PyDict.t Q) (m : Repr) : Repr :=
  if negb (FedAssClient.only_self node_id (FedAssClient.collaborators cw)) then
    set_weights m (aggregate reprs_dict cw)
  else m.

(** The position of the numpy vector of length [n] written by
    [collab_weight[k - 1] = v]: [k - 1] itself, or counted from the end
    when [k - 1] is negative. *)
Definition slot (n k : Z) : nat :=
  if decide (1 ≤ k) then Z.to_nat (k - 1) else Z.to_nat (n + (k - 1)).

(** The keys for which [collab_weight[k - 1]] is inside a vector of
    length [n]. *)
Definition indexable (n k : Z) : Prop := - n < k ≤ n.

(** ** Further observations on coordinator runs *)

(** The calls of a round of the coordinator up to and including the
    logging of the gathered stats (lines 144-162). *)
Definition round_prefix {Repr SModel StatsDict : Type}
    (env : ServerEnv Repr) (srv : FedAssServer.Server SModel)
    (s : FedAssServer.State Repr StatsDict)
  : list (FedAssServer.Event Repr StatsDict) :=
  ((λ c, FedAssServer.Send c ROUND_START None) <$> FedAssServer.users srv) ++
  [FedAssServer.LogConsole
     (FedAssServer.Text
        "Server waiting for all clients to finish local training");
   FedAssServer.AllGather REPR_ADVERT;
   FedAssServer.LogConsole
     (FedAssServer.Text "Server received all clients models")] ++
  ((λ c, FedAssServer.Send c REPRS_SHARE
           (Some (gather_reprs env (FedAssServer.round s))))
     <$> FedAssServer.users srv) ++
  [FedAssServer.AllGather ROUND_STATS;
   FedAssServer.LogConsole
     (FedAssServer.Text "Server received all clients stats");
   FedAssServer.LogTbRoundStats (gather_stats env (FedAssServer.round s))
     ["collab_weights"] (FedAssServer.round s)].

(** Round statistics in which both accuracies read by the log lines of
    lines 164-169 are present. *)
Definition has_accuracies (stats : Stats) : Prop :=
  (∃ v, stats_get "test_acc_after_training" stats = Ok v)
  ∧ (∃ v, stats_get "test_acc_before_training" stats = Ok v).

(** ** Example configurations and collaborators

    Three nodes unless stated otherwise; node 1 is assigned the nodes 1,
    2 and 3, node 2 only itself and node 3 nobody.  One round is run. *)
Definition example_config (strat : string) (n : Z) : Config :=
  {| strategy := strat; num_users := n;
     assigned_collaborators := [(1, [1; 2; 3]); (2, [2]); (3, [])];
     start_round := None; rounds := 1; epochs_per_round := 2; T_0 := 1;
     target_users_before_T_0 := 2; target_users_after_T_0 := 1 |}.

(** A trainer on integer models: aggregation sums the models of the
    weighted nodes, training adds the number of epochs. *)
Definition example_trainer : Trainer Z :=
  {| aggregate := λ models weights,
       sum_Z (PyDict.values
                (filter (λ kv, kv.1 ∈ PyDict.keys weights) models));
     set_weights := λ cur avg, avg;
     local_test := λ m, inject_Z m;
     local_train := λ m epochs, (m + epochs, ((1 # 2)%Q, inject_Z (m + epochs))) |}.

(** A float library for the examples.  Every example stays within the
    exact range, where the library is not consulted. *)
Definition example_floats : FloatLib :=
  {| libm_floor_log2 := Z.log2;
     float_collab_id := λ _ _ _, FloatNaN |}.

Definition example_env : Env Z :=
  {| reprs_share := λ _, [10; 20; 30]; rng := λ _, [0; 2]%nat |}.

Definition example_state : FedAssClient.State Z :=
  {| FedAssClient.model := 10; FedAssClient.trace := [] |}.

(** A coordinator whose model has accuracy 9/10, with no accuracy
    recorded yet. *)
Definition example_utils : ServerUtils unit (list (list Stats)) :=
  {| model_utils_test := λ _, ((1 # 10)%Q, (9 # 10)%Q);
     to_dict_arrays := λ stats, stats;
     set_round_step := λ d _, d |}.

Definition example_server : FedAssServer.Server unit :=
  {| FedAssServer.users := [1; 2; 3]; FedAssServer.smodel := tt;
     FedAssServer.model_save_path := "results/saved_models/node_0.pt" |}.

Definition example_server_env : ServerEnv Z :=
  {| gather_reprs := λ _, [10; 20; 30];
     gather_stats := λ _,
       [ [("test_acc_before_training", Scalar 0%Q);
          ("test_acc_after_training", Scalar 1%Q)] ] |}.

Definition example_server_state
  : FedAssServer.State Z (list (list Stats)) :=
  {| FedAssServer.best_acc := 0%Q; FedAssServer.round := 0;
     FedAssServer.trace := [] |}.

(** A coordinator environment in which a client reports stats without
    accuracies. *)
Definition example_server_env_missing : ServerEnv Z :=
  {| gather_reprs := λ _, [10; 20; 30];
     gather_stats := λ _, [ [("train_loss", Scalar (1 # 2)%Q)] ] |}.

(** * Properties *)

(** ** Dictionaries *)

Module PyDictFacts.
Import PyDict.
Section facts.
Context {V : Type}.
Implicit Types (d : PyDict.t V) (k : Z) (v : V).

Lemma set_absent k v d : k ∉ keys d → set k v d = d ++ [(k, v)].
Proof.
  induction d as [|[k' v'] d IH]; intros Hk; simpl; [done|].
  unfold keys in *; rewrite fmap_cons, not_elem_of_cons in Hk.
  destruct Hk as [Hne Hk]; simpl in Hne.
  case_decide; [congruence|]. by rewrite IH.
Qed.

Lemma set_present k v d : get k d = Ok v → set k v d = d.
Proof.
  induction d as [|[k' v'] d IH]; simpl; [done|].
  case_decide; [intros [= ->]; by subst|].
  intros Hg. by rewrite IH.
Qed.

Lemma keys_set k v d :
  keys (set k v d) = if decide (k ∈ keys d) then keys d else keys d ++ [k].
Proof.
  induction d as [|[k' v'] d IH]; simpl.
  - done.
  - destruct (decide (k' = k)) as [->|Hk]; simpl.
    + rewrite decide_True by (apply elem_of_cons; by left). done.
    + unfold keys in IH |- *. simpl. rewrite IH.
      destruct (decide (k ∈ d.*1)) as [Hin|Hin].
      * rewrite decide_True by (apply elem_of_cons; by right). done.
      * rewrite decide_False; [done|].
        intros [?|?]%elem_of_cons; simpl in *; congruence.
Qed.

Lemma NoDup_keys_set k v d : NoDup (keys d) → NoDup (keys (set k v d)).
Proof.
  intros Hd. rewrite keys_set. case_decide as Hk; [done|].
  apply NoDup_app. split_and!; [done| |apply NoDup_singleton].
  intros x Hx ->%list_elem_of_singleton. done.
Qed.

Lemma Forall_values_set (P : V → Prop) k v d :
  P v → Forall (λ kv, P kv.2) d → Forall (λ kv, P kv.2) (set k v d).
Proof.
  intros Hv. induction 1 as [|[k' v'] d Hx Hd IH]; simpl.
  - by constructor.
  - case_decide; constructor; done.
Qed.

Lemma get_set_values k v d : Forall (λ kv, kv.2 = v) d → k ∈ keys d → get k d = Ok v.
Proof.
  induction 1 as [|[k' v'] d Hx Hd IH]; unfold keys; simpl.
  - by intros ?%elem_of_nil.
  - intros [?|?]%elem_of_cons; simpl in *; case_decide; subst; try done.
    by apply IH.
Qed.

(** A comprehension over keys: unique keys, each with the given value. *)
Lemma of_keys_invariant (ks : list Z) v :
  NoDup (keys (of_keys ks v)) ∧ Forall (λ kv, kv.2 = v) (of_keys ks v).
Proof.
  unfold of_keys.
  cut (∀ d, NoDup (keys d) → Forall (λ kv, kv.2 = v) d →
            NoDup (keys (foldl (λ d k, set k v d) d ks)) ∧
            Forall (λ kv, kv.2 = v) (foldl (λ d k, set k v d) d ks)).
  { intros H. apply H; [apply NoDup_nil_2|constructor]. }
  induction ks as [|k ks IH]; intros d Hd Hv; simpl; [done|].
  apply IH; [by apply NoDup_keys_set|].
  by apply (Forall_values_set (λ x, x = v)).
Qed.

Lemma foldl_set_fresh (ks : list Z) v d :
  NoDup ks → (∀ k, k ∈ ks → k ∉ keys d) →
  foldl (λ d k, set k v d) d ks = d ++ ((λ k, (k, v)) <$> ks).
Proof.
  revert d. induction ks as [|k ks IH]; intros d Hks Hd; simpl.
  - by rewrite app_nil_r.
  - apply NoDup_cons in Hks as [Hk Hks].
    rewrite set_absent by (apply Hd, elem_of_cons; by left).
    rewrite IH; [by rewrite <- app_assoc|done|].
    intros k' Hk'. unfold keys. rewrite fmap_app, elem_of_app; simpl.
    intros [Hin|Hin%list_elem_of_singleton]; [|congruence].
    by apply (Hd k'); [apply elem_of_cons; right|].
Qed.

(** [{k: v for k in ks}] on distinct keys lists them in order. *)
Lemma of_keys_NoDup (ks : list Z) v :
  NoDup ks → of_keys ks v = (λ k, (k, v)) <$> ks.
Proof.
  intros Hks. unfold of_keys. rewrite foldl_set_fresh; [done|done|].
  intros k _ Hk. by apply elem_of_nil in Hk.
Qed.

Lemma keys_of_keys_elem (ks : list Z) v k : k ∈ keys (of_keys ks v) ↔ k ∈ ks.
Proof.
  unfold of_keys.
  cut (∀ d, k ∈ keys (foldl (λ d k, set k v d) d ks) ↔ k ∈ keys d ∨ k ∈ ks).
  { intros H. rewrite H. unfold keys; simpl. rewrite elem_of_nil. tauto. }
  induction ks as [|k' ks IH]; intros d; simpl.
  - rewrite elem_of_nil. tauto.
  - rewrite IH, keys_set, elem_of_cons. case_decide as Hin.
    + split; [tauto|]. intros [?|[->|?]]; tauto.
    + rewrite elem_of_app, list_elem_of_singleton. tauto.
Qed.
End facts.
End PyDictFacts.

(** ** Sums and true division *)

Lemma sum_Z_ones {K : Type} (d : list (K * Z)) :
  Forall (λ kw, kw.2 = 1) d → sum_Z d.*2 = Z.of_nat (length d).
Proof.
  unfold sum_Z. intros Hd.
  cut (∀ a, foldl Z.add a d.*2 = a + Z.of_nat (length d)).
  { intros H. by rewrite H. }
  induction Hd as [|[k w] d Hw Hd IH]; intros a; simpl in *.
  - lia.
  - rewrite IH. lia.
Qed.

Lemma true_div_one (n : nat) :
  true_div 1 (Z.of_nat (S n)) = Ok (1 # Pos.of_nat (S n))%Q.
Proof.
  unfold true_div. rewrite decide_False by lia.
  rewrite <- Pos.of_nat_succ. reflexivity.
Qed.

Lemma sum_Q_const {K : Type} (q : Q) (d : list (K * Q)) :
  Forall (λ kw, kw.2 = q) d →
  (sum_Q d.*2 == inject_Z (Z.of_nat (length d)) * q)%Q.
Proof.
  unfold sum_Q. intros Hd.
  cut (∀ a, (foldl Qplus a d.*2 == a + inject_Z (Z.of_nat (length d)) * q)%Q).
  { intros H. rewrite H. ring. }
  induction Hd as [|[k w] d Hw Hd IH]; intros a; simpl in *.
  - ring.
  - rewrite IH, Hw, Nat2Z.inj_succ. unfold Z.succ.
    rewrite inject_Z_plus. ring.
Qed.

Lemma unit_fraction_total (n : nat) :
  (inject_Z (Z.of_nat (S n)) * (1 # Pos.of_nat (S n)) == 1)%Q.
Proof.
  unfold Qeq, Qmult, inject_Z; simpl Qnum; simpl Qden.
  rewrite <- Pos.of_nat_succ, Pos.mul_1_l, Zpos_P_of_succ_nat. lia.
Qed.

Lemma Qgt_bool_true (a b : Q) : Qgt_bool a b = true ↔ (b < a)%Q.
Proof.
  unfold Qgt_bool. rewrite negb_true_iff, <- not_true_iff_false, Qle_bool_iff.
  split; [apply Qnot_le_lt|apply Qlt_not_le].
Qed.

(** ** Collaborator weights *)

Lemma Ok_inj {A : Type} (a b : A) : Ok a = Ok b → a = b.
Proof. congruence. Qed.

(** Reduce the binds of [result] once their argument is a value. *)
Ltac result_step := cbv beta iota delta [mbind mret result_bind result_ret].

Section weights.
Import PyDict PyDictFacts FedAssClient.
Context {float_lib : FloatLib}.
Implicit Types (cfg : Config) (node_id round : Z) (draw : list nat).

(** Every strategy gives raw weight 1 to each of its distinct keys. *)
Lemma strategy_weights_ones cfg node_id nc round draw raw :
  strategy_weights cfg node_id nc round draw = Ok raw →
  NoDup (keys raw) ∧ Forall (λ kw, kw.2 = 1) raw.
Proof.
  unfold strategy_weights. repeat case_decide; [| | |done].
  - destruct (get node_id _); result_step; [|done].
    intros <-%Ok_inj. apply of_keys_invariant.
  - destruct (floor_log2 _) as [period|]; result_step; [|done].
    destruct (py_mod round _) as [power|]; result_step; [|done].
    destruct (direct_expo_collab_id _ _ _) as [r|]; result_step; [|done].
    intros <-%Ok_inj. split.
    + by apply NoDup_keys_set, NoDup_keys_set, NoDup_nil_2.
    + apply (Forall_values_set (λ x, x = 1)); [done|].
      apply (Forall_values_set (λ x, x = 1)); [done|constructor].
  - destruct (get node_id _); result_step; [|done].
    destruct (np_random_choice _ _ _) as [sample|]; result_step; [|done].
    intros <-%Ok_inj. destruct (of_keys_invariant sample 1) as [Hk Hv]. split.
    + by apply NoDup_keys_set.
    + by apply (Forall_values_set (λ x, x = 1)).
Qed.

Lemma mapM_true_div_ones (m : nat) (l : PyDict.t Z) :
  Forall (λ kw, kw.2 = 1) l →
  mapM_result (λ '(id, w), q ← true_div w (Z.of_nat (S m)); Ok (id, q)) l
  = Ok ((λ kw, (kw.1, 1 # Pos.of_nat (S m))%Q) <$> l).
Proof.
  induction 1 as [|[id w] l Hw Hl IH]; [done|].
  simpl in Hw; subst w.
  cbn [mapM_result]. rewrite true_div_one, IH. reflexivity.
Qed.

(** Normalising raw weights that are all 1 gives each key the unit
    fraction of the number of keys. *)
Lemma normalize_ones (raw : PyDict.t Z) :
  Forall (λ kw, kw.2 = 1) raw →
  normalize raw = Ok ((λ kw, (kw.1, 1 # Pos.of_nat (length raw))%Q) <$> raw).
Proof.
  intros Hraw. unfold normalize, values. rewrite (sum_Z_ones _ Hraw).
  destruct raw as [|kw0 raw0]; [done|].
  cbn [length]. by apply mapM_true_div_ones.
Qed.

(** The weights returned are the unit fractions of the number of keys
    of the strategy's dictionary. *)
Lemma get_collaborator_weights_inv cfg node_id nc round draw cw :
  get_collaborator_weights cfg node_id nc round draw = Ok cw →
  ∃ raw, strategy_weights cfg node_id nc round draw = Ok raw ∧
         NoDup (keys raw) ∧ Forall (λ kw, kw.2 = 1) raw ∧
         cw = (λ kw, (kw.1, 1 # Pos.of_nat (length raw))%Q) <$> raw.
Proof.
  unfold get_collaborator_weights.
  destruct (strategy_weights _ _ _ _ _) as [raw|] eqn:Hraw; result_step; [|done].
  destruct (strategy_weights_ones _ _ _ _ _ _ Hraw) as [Hk Hv].
  rewrite (normalize_ones _ Hv). intros <-%Ok_inj. by exists raw.
Qed.

Lemma keys_normalized (raw : PyDict.t Z) (q : Q) :
  keys ((λ kw, (kw.1, q)) <$> raw) = keys raw.
Proof. unfold keys. rewrite <- list_fmap_compose. done. Qed.

Lemma get_collaborator_weights_NoDup cfg node_id nc round draw cw :
  get_collaborator_weights cfg node_id nc round draw = Ok cw →
  NoDup (keys cw).
Proof.
  intros (raw & _ & Hk & _ & ->)%get_collaborator_weights_inv.
  by rewrite keys_normalized.
Qed.
End weights.

Section strategies.
Import PyDict PyDictFacts FedAssClient.
Context {float_lib : FloatLib}.
Implicit Types (cfg : Config) (node_id round : Z) (draw : list nat).

Lemma log2_pred_pos (n : Z) : 3 ≤ n → 1 ≤ Z.log2 (n - 1).
Proof.
  intros Hn. change (Z.log2 2 ≤ Z.log2 (n - 1)). apply Z.log2_le_mono. lia.
Qed.

(** The peer of [direct_expo] is never the node itself: the step is at
    most half of [num_users - 1], so [step + 1] is not a multiple of
    [num_users]. *)
Lemma direct_expo_peer_bounds (n node_id round : Z) :
  3 ≤ n →
  let peer := (node_id + 2 ^ (round mod Z.log2 (n - 1))) mod n + 1 in
  1 ≤ peer ≤ n ∧ peer ≠ node_id.
Proof.
  intros Hn peer. subst peer.
  pose proof (log2_pred_pos n Hn) as Hperiod.
  set (period := Z.log2 (n - 1)) in *.
  assert (0 ≤ round mod period < period) as Hpow by (apply Z.mod_pos_bound; lia).
  set (power := round mod period) in *.
  assert (2 ^ period ≤ n - 1) as Hlog by (apply Z.log2_spec; lia).
  assert (2 * 2 ^ power ≤ 2 ^ period) as Hstep.
  { rewrite <- Z.pow_succ_r by lia. apply Z.pow_le_mono_r; lia. }
  assert (0 < 2 ^ power) as Hpos by (apply Z.pow_pos_nonneg; lia).
  pose proof (Z.mod_pos_bound (node_id + 2 ^ power) n ltac:(lia)) as Hmod.
  split; [lia|].
  intros Heq.
  pose proof (Z.div_mod (node_id + 2 ^ power) n ltac:(lia)) as Hdiv.
  set (q := (node_id + 2 ^ power) / n) in Hdiv.
  assert (2 ^ power + 1 = n * q) as Hmul by lia.
  destruct (Z.le_gt_cases q 0); nia.
Qed.

(** Below [2^47] users the period is at most 46. *)
Lemma log2_pred_small (n : Z) :
  3 ≤ n → n ≤ log2_exact_bound → Z.log2 (n - 1) < 47.
Proof.
  unfold log2_exact_bound. intros Hn Hub.
  apply Z.log2_lt_pow2; lia.
Qed.

Lemma direct_expo_strategy cfg node_id nc round draw :
  strategy cfg = "direct_expo" → 3 ≤ num_users cfg →
  num_users cfg ≤ log2_exact_bound →
  - float_exact_bound ≤ node_id ≤ float_exact_bound →
  let peer :=
    (node_id + 2 ^ (round mod Z.log2 (num_users cfg - 1))) mod num_users cfg + 1 in
  strategy_weights cfg node_id nc round draw = Ok [(node_id, 1); (peer, 1)].
Proof.
  intros Hs Hn Hub Hid peer. unfold strategy_weights.
  rewrite decide_False by (rewrite Hs; done). rewrite decide_True by done.
  pose proof (log2_pred_pos _ Hn) as Hperiod.
  pose proof (log2_pred_small _ Hn Hub) as Hsmall.
  unfold floor_log2. rewrite decide_False by lia.
  rewrite decide_True by lia. result_step.
  unfold py_mod at 1. rewrite decide_False by lia. result_step.
  pose proof (Z.mod_pos_bound round (Z.log2 (num_users cfg - 1)) ltac:(lia))
    as Hpower.
  unfold direct_expo_collab_id. rewrite decide_True.
  2:{ unfold log2_exact_bound, float_exact_bound in *. lia. }
  unfold py_mod. rewrite decide_False by lia. result_step.
  destruct (direct_expo_peer_bounds (num_users cfg) node_id round Hn) as [_ Hne].
  fold peer in Hne |- *. unfold empty. cbn [set].
  rewrite decide_False by done. done.
Qed.

Lemma direct_expo_result cfg node_id nc round draw :
  strategy cfg = "direct_expo" → 3 ≤ num_users cfg →
  num_users cfg ≤ log2_exact_bound →
  - float_exact_bound ≤ node_id ≤ float_exact_bound →
  let peer :=
    (node_id + 2 ^ (round mod Z.log2 (num_users cfg - 1))) mod num_users cfg + 1 in
  get_collaborator_weights cfg node_id nc round draw
  = Ok [(node_id, (1 # 2)%Q); (peer, (1 # 2)%Q)].
Proof.
  intros Hs Hn Hub Hid peer. unfold get_collaborator_weights.
  rewrite direct_expo_strategy by done. reflexivity.
Qed.

(** C2.  Under [direct_expo] with at least three nodes, within the range
    on which the float arithmetic of lines 25-27 is exact (at most [2^47]
    nodes, a node identity of magnitude at most [2^52]), the weights are
    one half for the node and one half for the peer
    [((node_id + 2^(round mod floor(log2(num_users - 1)))) mod num_users) + 1],
    and the result is periodic in the round with period
    [floor(log2(num_users - 1))]. *)
Theorem direct_expo_weights cfg node_id nc round draw :
  strategy cfg = "direct_expo" → 3 ≤ num_users cfg →
  num_users cfg ≤ log2_exact_bound →
  - float_exact_bound ≤ node_id ≤ float_exact_bound →
  let period := Z.log2 (num_users cfg - 1) in
  let power := round mod period in
  let step := 2 ^ power in
  let peer := (node_id + step) mod num_users cfg + 1 in
  get_collaborator_weights cfg node_id nc round draw
    = Ok [(node_id, (1 # 2)%Q); (peer, (1 # 2)%Q)]
  ∧ get_collaborator_weights cfg node_id nc (round + period) draw
    = get_collaborator_weights cfg node_id nc round draw.
Proof.
  intros Hs Hn Hub Hid period power step peer. split.
  - by apply direct_expo_result.
  - rewrite !direct_expo_result by done. fold period.
    replace ((round + period) mod period) with (round mod period); [done|].
    rewrite <- (Z.mul_1_l period) at 2. pose proof (log2_pred_pos _ Hn).
    by rewrite Z.mod_add by (subst period; lia).
Qed.

(** The only empty result: the [fixed] strategy on an empty assigned
    list. *)
Lemma empty_weights_only_fixed cfg node_id nc round draw :
  get_collaborator_weights cfg node_id nc round draw = Ok [] →
  strategy cfg = "fixed" ∧ get node_id (assigned_collaborators cfg) = Ok [].
Proof.
  intros (raw & Hraw & _ & _ & Hcw)%get_collaborator_weights_inv.
  symmetry in Hcw. apply fmap_nil_inv in Hcw. subst raw.
  revert Hraw. unfold strategy_weights. repeat case_decide; [| | |done].
  - destruct (get node_id _) as [l|]; result_step; [|done].
    intros Hl%Ok_inj. split; [done|]. f_equal.
    destruct l as [|k l]; [done|]. exfalso.
    assert (k ∈ keys (of_keys (k :: l) (1:Z))) as Hin.
    { apply keys_of_keys_elem, elem_of_cons. by left. }
    rewrite Hl in Hin. by apply elem_of_nil in Hin.
  - destruct (floor_log2 _); result_step; [|done].
    destruct (py_mod round _); result_step; [|done].
    destruct (direct_expo_collab_id _ _ _); result_step; [|done].
    intros Hl%Ok_inj. exfalso. revert Hl. unfold empty. cbn [set].
    case_decide; done.
  - destruct (get node_id _) as [l|]; result_step; [|done].
    destruct (np_random_choice _ _ _) as [sample|]; result_step; [|done].
    intros Hl%Ok_inj. exfalso.
    assert (node_id ∈ keys (set node_id 1 (of_keys sample 1))) as Hin.
    { rewrite keys_set. case_decide; [done|].
      apply elem_of_app. right. by apply list_elem_of_singleton. }
    rewrite Hl in Hin. by apply elem_of_nil in Hin.
Qed.

(** C1 (as amended).  Whatever the strategy, the node and the round, when
    [get_collaborator_weights] returns a mapping, every weight is the raw
    weight divided by the sum of the raw weights and is strictly positive;
    when the mapping is not empty the weights sum to 1 (hence within 1e-9
    of 1); the mapping is empty only under [fixed] with an empty assigned
    list. *)
Theorem weights_positive_sum_one cfg node_id nc round draw cw :
  get_collaborator_weights cfg node_id nc round draw = Ok cw →
  (∃ raw, strategy_weights cfg node_id nc round draw = Ok raw ∧
     cw = (λ kw, (kw.1, (inject_Z kw.2 / inject_Z (sum_Z (values raw)))%Q))
            <$> raw)
  ∧ Forall (λ kw, (0 < kw.2)%Q) cw
  ∧ (cw ≠ [] →
     (sum_Q (values cw) == 1)%Q
     ∧ (Qabs (sum_Q (values cw) - 1) <= 1 # 1000000000)%Q)
  ∧ (cw = [] →
     strategy cfg = "fixed"
     ∧ get node_id (assigned_collaborators cfg) = Ok []).
Proof.
  intros Hcw. pose proof Hcw as (raw & Hraw & Hk & Hv & ->)%get_collaborator_weights_inv.
  split; [|split; [|split]].
  - exists raw. split; [done|].
    destruct raw as [|kw0 raw0] eqn:Eraw; [done|]. rewrite <- Eraw in *.
    assert (∃ m, length raw = S m) as [m Hm] by (subst raw; by eexists).
    apply Forall_fmap_ext_1.
    eapply Forall_impl; [exact Hv|]. intros [k w] Hw; simpl in *. subst w.
    unfold values. rewrite (sum_Z_ones _ Hv), Hm.
    f_equal. apply Ok_inj. rewrite <- true_div_one.
    unfold true_div. by rewrite decide_False by lia.
  - apply Forall_fmap, Forall_true. intros kw. simpl. reflexivity.
  - intros Hne.
    destruct raw as [|kw0 raw0] eqn:Eraw; [done|]. rewrite <- Eraw in *.
    assert (∃ m, length raw = S m) as [m Hm] by (subst raw; by eexists).
    rewrite Hm.
    assert (sum_Q (values ((λ kw, (kw.1, 1 # Pos.of_nat (S m))%Q) <$> raw)) == 1)%Q
      as Hsum.
    { unfold values. etransitivity.
      - apply (sum_Q_const (1 # Pos.of_nat (S m))).
        apply Forall_fmap, Forall_true. done.
      - rewrite length_fmap, Hm. apply unit_fraction_total. }
    split; [exact Hsum|]. rewrite Hsum. vm_compute. discriminate.
  - intros Hnil. rewrite Hnil in Hcw. by apply empty_weights_only_fixed in Hcw.
Qed.

(** C6.  Under [fixed] the keys of the result are exactly the assigned
    collaborators of the node, each once, and each has weight [1/k] for
    [k] the number of keys; with the assigned collaborators [k] distinct
    identities the result lists them in order with weight [1/k] each. *)
Theorem fixed_weights cfg node_id nc round draw assigned :
  strategy cfg = "fixed" →
  get node_id (assigned_collaborators cfg) = Ok assigned →
  ∃ cw, get_collaborator_weights cfg node_id nc round draw = Ok cw
    ∧ NoDup (keys cw)
    ∧ (∀ id, id ∈ keys cw ↔ id ∈ assigned)
    ∧ Forall (λ kw, kw.2 = (1 # Pos.of_nat (length cw))%Q) cw
    ∧ (NoDup assigned →
       cw = (λ id, (id, (1 # Pos.of_nat (length assigned))%Q)) <$> assigned).
Proof.
  intros Hs Ha. unfold get_collaborator_weights, strategy_weights.
  rewrite decide_True by done. rewrite Ha. result_step.
  destruct (of_keys_invariant assigned (1:Z)) as [Hnd Hones].
  rewrite normalize_ones by done. eexists. split; [done|].
  split; [|split; [|split]].
  - by rewrite keys_normalized.
  - intros id. rewrite keys_normalized. apply keys_of_keys_elem.
  - apply Forall_fmap, Forall_true. intros kw. simpl. by rewrite length_fmap.
  - intros Hdistinct. rewrite of_keys_NoDup by done.
    by rewrite length_fmap, <- list_fmap_compose.
Qed.

(** Distinct positions of a list of distinct identities hold distinct
    identities. *)
Lemma NoDup_sample (universe : list Z) (draw : list nat) :
  NoDup universe → NoDup draw →
  Forall (λ i, (i < length universe)%nat) draw →
  NoDup ((λ i, nth i universe 0) <$> draw).
Proof.
  intros Hu Hd Hlt. apply NoDup_fmap_2_strong; [|done].
  intros i j Hi Hj Heq.
  rewrite Forall_forall in Hlt.
  destruct (lookup_lt_is_Some_2 universe i (Hlt i Hi)) as [x Hx].
  destruct (lookup_lt_is_Some_2 universe j (Hlt j Hj)) as [y Hy].
  rewrite (nth_lookup_Some _ _ _ _ Hx), (nth_lookup_Some _ _ _ _ Hy) in Heq.
  subst y. exact (proj1 (NoDup_alt universe) Hu i j x Hx Hy).
Qed.

Lemma draw_length_le (n : nat) (draw : list nat) :
  NoDup draw → Forall (λ i, (i < n)%nat) draw → (length draw ≤ n)%nat.
Proof.
  intros Hd Hlt.
  assert (draw ⊆+ seq 0 n) as Hsub.
  { apply NoDup_submseteq; [done|].
    intros i Hi. rewrite Forall_forall in Hlt. apply elem_of_seq.
    specialize (Hlt i Hi). lia. }
  apply submseteq_length in Hsub. by rewrite length_seq in Hsub.
Qed.

Lemma np_random_choice_valid (universe : list Z) (nc : Z) (draw : list nat) :
  valid_draw (length universe) nc draw →
  np_random_choice universe nc draw = Ok ((λ i, nth i universe 0) <$> draw).
Proof.
  intros (Hd & Hlt & Hlen). pose proof (draw_length_le _ _ Hd Hlt) as Hle.
  unfold np_random_choice.
  rewrite decide_False; [|intros [-> ?]; simpl in *; lia].
  rewrite decide_False by lia. rewrite decide_False by lia. done.
Qed.

Lemma Pos_of_nat_to_nat (z : Z) : Pos.of_nat (Z.to_nat z) = Z.to_pos z.
Proof. destruct z; simpl; [done| |done]. apply Pos2Nat.id. Qed.

(** C10.  Under [random_among_assigned], with the assigned universe of
    the node a list of distinct identities and [num_collaborator] of its
    positions drawn without replacement: when the node is among the
    sampled identities the result has exactly the [num_collaborator]
    sampled keys, each with weight [1/num_collaborator]; when it is not,
    the result has the sampled keys and the node, [num_collaborator + 1]
    keys, each with weight [1/(num_collaborator + 1)]. *)
Theorem random_among_assigned_weights cfg node_id nc round draw universe :
  strategy cfg = "random_among_assigned" →
  get node_id (assigned_collaborators cfg) = Ok universe →
  NoDup universe →
  valid_draw (length universe) nc draw →
  let sample := (λ i, nth i universe 0) <$> draw in
  ∃ cw, get_collaborator_weights cfg node_id nc round draw = Ok cw ∧
    (node_id ∈ sample →
       keys cw = sample ∧ Z.of_nat (length cw) = nc ∧
       Forall (λ kw, kw.2 = (1 # Z.to_pos nc)%Q) cw) ∧
    (node_id ∉ sample →
       keys cw = sample ++ [node_id] ∧ Z.of_nat (length cw) = nc + 1 ∧
       Forall (λ kw, kw.2 = (1 # Z.to_pos (nc + 1))%Q) cw).
Proof.
  intros Hs Hu Hnd Hdraw sample.
  pose proof Hdraw as (Hd & Hlt & Hlen).
  assert (NoDup sample) as Hsample by (by apply NoDup_sample).
  assert (length sample = length draw) as Hlsample by apply length_fmap.
  unfold get_collaborator_weights, strategy_weights.
  rewrite decide_False by (rewrite Hs; done).
  rewrite decide_False by (rewrite Hs; done).
  rewrite decide_True by done. rewrite Hu. result_step.
  rewrite np_random_choice_valid by done. result_step. fold sample.
  rewrite of_keys_NoDup by done.
  set (d := (λ k, (k, 1)) <$> sample).
  assert (keys d = sample) as Hkeys.
  { unfold keys, d. rewrite <- list_fmap_compose. apply list_fmap_id. }
  assert (Forall (λ kw, kw.2 = 1) d) as Hones.
  { apply Forall_fmap, Forall_true. done. }
  assert (length d = length draw) as Hld.
  { unfold d. by rewrite length_fmap. }
  destruct (decide (node_id ∈ sample)) as [Hin|Hin].
  - rewrite set_present by (apply get_set_values; [done|by rewrite Hkeys]).
    rewrite normalize_ones by done. eexists. split; [done|].
    split; [|done]. intros _. split_and!.
    + by rewrite keys_normalized.
    + rewrite length_fmap. lia.
    + apply Forall_fmap, Forall_true. intros kw; simpl.
      by rewrite Hld, <- Hlen, <- Pos_of_nat_to_nat, Nat2Z.id.
  - rewrite set_absent by (by rewrite Hkeys).
    rewrite normalize_ones
      by (apply Forall_app; split; [done|by repeat constructor]).
    eexists. split; [done|]. split; [done|]. intros _. split_and!.
    + rewrite keys_normalized. unfold keys. rewrite fmap_app. simpl.
      fold (keys d). by rewrite Hkeys.
    + rewrite length_fmap, length_app. simpl. lia.
    + apply Forall_fmap, Forall_true. intros kw; simpl.
      rewrite length_app, Hld, <- Hlen, <- Pos_of_nat_to_nat. simpl length.
      do 2 f_equal. lia.
Qed.
End strategies.

(** ** The client round loop *)

(** Run the binds of the round-loop monad on the current state. *)
Ltac m_step :=
  cbv beta iota delta
    [mbind mret M_bind M_ret lift gets
     FedAssClient.emit FedAssClient.receive FedAssClient.get_representation
     FedAssClient.call_aggregate FedAssClient.call_set_model_weights
     FedAssClient.call_local_test FedAssClient.call_local_train];
  cbn [FedAssClient.model FedAssClient.trace fst snd].

Section client_rounds.
Import PyDict PyDictFacts FedAssClient.
Context {Repr : Type} `{!Trainer Repr} {float_lib : FloatLib}.
Implicit Types (cfg : Config) (node_id round : Z) (s : State Repr)
  (cw : PyDict.t Q) (env : Env Repr).

Lemma train_step_run epochs s :
  train_step epochs [] s =
  (Ok (training_stats (model s) epochs),
   {| model := (local_train (model s) epochs).1;
      trace := trace s ++ training_events epochs |}).
Proof.
  unfold train_step, training_stats, training_events. m_step.
  destruct (local_train (model s) epochs) as [m [loss acc]]. m_step.
  rewrite <- !app_assoc. reflexivity.
Qed.

(** The round up to the computation of the weights, and the rest of the
    round from the state reached there. *)
Lemma client_round_unfold env cfg node_id round s :
  client_round env cfg node_id round s =
  let s1 := {| model := model s;
               trace := trace s ++ exchange_events (model s) |} in
  match get_collaborator_weights cfg node_id (num_collaborator cfg round)
          round (rng env round) with
  | Raise e => (Raise e, s1)
  | Ok cw =>
      (_ ← aggregate_step node_id (enumerate1 (reprs_share env round)) cw;
       stats ← train_step (epochs_per_round cfg) [];
       report_step cfg cw stats) s1
  end.
Proof.
  unfold client_round, exchange_events. m_step. rewrite <- !app_assoc.
  cbn [app]. by destruct (get_collaborator_weights _ _ _ _ _).
Qed.

Lemma client_round_raise env cfg node_id round s e :
  get_collaborator_weights cfg node_id (num_collaborator cfg round) round
    (rng env round) = Raise e →
  client_round env cfg node_id round s =
  (Raise e, {| model := model s;
               trace := trace s ++ exchange_events (model s) |}).
Proof. intros He. by rewrite client_round_unfold, He. Qed.

Lemma run_protocol_first_round env cfg node_id s :
  default 0 (start_round cfg) < rounds cfg →
  run_protocol env cfg node_id s =
  (_ ← client_round env cfg node_id (default 0 (start_round cfg));
   for_each (client_round env cfg node_id)
     (py_range (default 0 (start_round cfg) + 1) (rounds cfg))) s.
Proof.
  intros Hlt. unfold run_protocol, py_range.
  rewrite seqZ_cons by lia. cbn [for_each].
  by replace (Z.pred (rounds cfg - default 0 (start_round cfg)))
    with (rounds cfg - (default 0 (start_round cfg) + 1)) by lia.
Qed.

Lemma run_protocol_raise env cfg node_id s e :
  default 0 (start_round cfg) < rounds cfg →
  (∀ round, get_collaborator_weights cfg node_id (num_collaborator cfg round)
              round (rng env round) = Raise e) →
  run_protocol env cfg node_id s =
  (Raise e, {| model := model s;
               trace := trace s ++ exchange_events (model s) |}).
Proof.
  intros Hlt He. rewrite run_protocol_first_round by done.
  cbv beta iota delta [mbind M_bind].
  by rewrite (client_round_raise _ _ _ _ _ e).
Qed.

(** C4 (as amended).  No validation step rejects [direct_expo] with
    fewer than three nodes: when at least one round is to run, the
    failure is raised by the weight computation inside the first round,
    after the client received the start signal, advertised its
    representation and received the shared representations, and before
    any aggregation, training or report.  It is a [ZeroDivisionError]
    for two nodes and a [ValueError] for fewer. *)
Theorem direct_expo_few_users_fails_in_first_round env cfg node_id s :
  strategy cfg = "direct_expo" → num_users cfg < 3 →
  default 0 (start_round cfg) < rounds cfg →
  run_protocol env cfg node_id s =
  (Raise (if decide (num_users cfg = 2) then ZeroDivisionError
          else ValueError "math domain error"),
   {| model := model s; trace := trace s ++ exchange_events (model s) |}).
Proof.
  intros Hs Hn Hlt. apply run_protocol_raise; [done|]. intros round.
  unfold get_collaborator_weights, strategy_weights.
  rewrite decide_False by (rewrite Hs; done). rewrite decide_True by done.
  unfold floor_log2. destruct (decide (num_users cfg - 1 ≤ 0)) as [Hle|Hgt].
  - result_step. by rewrite decide_False by lia.
  - assert (num_users cfg = 2) as H2 by lia.
    rewrite H2. result_step. unfold py_mod. cbn [Z.sub Z.add Z.opp Z.pos_sub Z.log2].
    rewrite decide_True by done. result_step. by rewrite decide_True by done.
Qed.

(** C5 (as amended).  No validation step rejects an unrecognized
    strategy name: when at least one round is to run, the failure is the
    [ValueError] raised by the last branch of the weight computation
    inside the first round, after the client received the start signal,
    advertised its representation and received the shared
    representations. *)
Theorem unknown_strategy_fails_in_first_round env cfg node_id s :
  strategy cfg ≠ "fixed" → strategy cfg ≠ "direct_expo" →
  strategy cfg ≠ "random_among_assigned" →
  default 0 (start_round cfg) < rounds cfg →
  run_protocol env cfg node_id s =
  (Raise (ValueError "Strategy not implemented"),
   {| model := model s; trace := trace s ++ exchange_events (model s) |}).
Proof.
  intros H1 H2 H3 Hlt. apply run_protocol_raise; [done|]. intros round.
  unfold get_collaborator_weights, strategy_weights.
  by rewrite !decide_False by done.
Qed.

Lemma np_setitem_in_range (vec : list Q) (k : Z) (v : Q) :
  1 ≤ k ≤ Z.of_nat (length vec) →
  np_setitem vec (k - 1) v = Ok (<[Z.to_nat (k - 1) := v]> vec).
Proof. intros Hk. unfold np_setitem. by rewrite decide_True by lia. Qed.

(** The loop of lines 105-106 on valid node identities. *)
Lemma foldM_setitem_spec cw : ∀ vec : list Q,
  NoDup (keys cw) →
  Forall (λ k, 1 ≤ k ≤ Z.of_nat (length vec)) (keys cw) →
  ∃ vec', foldM (λ vec '(k, v), np_setitem vec (k - 1) v) vec cw = Ok vec'
    ∧ length vec' = length vec
    ∧ (∀ k w, (k, w) ∈ cw → vec' !! Z.to_nat (k - 1) = Some w)
    ∧ (∀ i, (∀ k, k ∈ keys cw → Z.to_nat (k - 1) ≠ i) → vec' !! i = vec !! i).
Proof.
  induction cw as [|[k v] cw IH]; intros vec Hnd Hrange.
  - exists vec. split_and!; [done|done| |done].
    intros k w Hin. by apply elem_of_nil in Hin.
  - unfold keys in Hnd, Hrange. rewrite fmap_cons in Hnd, Hrange.
    apply NoDup_cons in Hnd as [Hk Hnd].
    apply Forall_cons in Hrange as [Hkr Hrange]. cbn [fst] in *.
    cbn [foldM]. rewrite np_setitem_in_range by done. result_step.
    destruct (IH (<[Z.to_nat (k - 1) := v]> vec)) as (vec' & Hrun & Hlen & Hin & Hout).
    { done. }
    { by rewrite length_insert. }
    rewrite length_insert in Hlen.
    exists vec'. split_and!; [done|done| |].
    + intros k' w [[= -> ->]|Hin']%elem_of_cons; [|by apply Hin].
      rewrite Hout.
      * apply list_lookup_insert_eq. lia.
      * intros k' Hk' Heq. rewrite Forall_forall in Hrange.
        specialize (Hrange k' Hk'). assert (k' = k) as -> by lia. done.
    + intros i Hi. rewrite Hout.
      * apply list_lookup_insert_ne. apply Hi, elem_of_cons. by left.
      * intros k' Hk'. apply Hi, elem_of_cons. by right.
Qed.

Lemma collab_weight_vector_spec (n : Z) cw :
  0 ≤ n → NoDup (keys cw) → Forall (λ k, 1 ≤ k ≤ n) (keys cw) →
  ∃ vec, collab_weight_vector n cw = Ok vec
    ∧ length vec = Z.to_nat n
    ∧ (∀ k w, (k, w) ∈ cw → vec !! Z.to_nat (k - 1) = Some w)
    ∧ (∀ k, 1 ≤ k ≤ n → k ∉ keys cw → vec !! Z.to_nat (k - 1) = Some 0%Q).
Proof.
  intros Hn Hnd Hrange. unfold collab_weight_vector, np_zeros.
  rewrite decide_False by lia. result_step.
  destruct (foldM_setitem_spec cw (replicate (Z.to_nat n) 0%Q))
    as (vec & Hrun & Hlen & Hin & Hout); [done| |].
  { rewrite length_replicate, Z2Nat.id by done. done. }
  rewrite length_replicate in Hlen.
  exists vec. split_and!; [done..|].
  intros k Hk Hnot. rewrite Hout.
  - apply lookup_replicate_2. lia.
  - intros k' Hk' Heq. rewrite Forall_forall in Hrange.
    specialize (Hrange k' Hk'). assert (k' = k) as -> by lia. done.
Qed.

(** C8.  In the report step, with the collaborators valid node
    identities (between 1 and [num_users]), the client builds a vector
    of length [num_users] whose entry at index [k - 1] is the normalized
    weight of collaborator [k] and whose entries for the other nodes are
    0, stores it in the stats under [collab_weights], and sends the
    stats to the coordinator on the channel [ROUND_STATS]. *)
Theorem report_collab_weights cfg node_id nc round draw cw stats s :
  get_collaborator_weights cfg node_id nc round draw = Ok cw →
  0 ≤ num_users cfg →
  Forall (λ k, 1 ≤ k ≤ num_users cfg) (keys cw) →
  ∃ vec,
    collab_weight_vector (num_users cfg) cw = Ok vec
    ∧ length vec = Z.to_nat (num_users cfg)
    ∧ (∀ k w, (k, w) ∈ cw → vec !! Z.to_nat (k - 1) = Some w)
    ∧ (∀ k, 1 ≤ k ≤ num_users cfg → k ∉ keys cw →
            vec !! Z.to_nat (k - 1) = Some 0%Q)
    ∧ stats_get "collab_weights"
        (stats_set "collab_weights" (Vector vec) stats) = Ok (Vector vec)
    ∧ report_step cfg cw stats s =
      (Ok tt,
       {| model := model s;
          trace := trace s ++
            [SendStats ROUND_STATS
               (stats_set "collab_weights" (Vector vec) stats)] |}).
Proof.
  intros Hcw Hn Hrange.
  pose proof (get_collaborator_weights_NoDup _ _ _ _ _ _ Hcw) as Hnd.
  destruct (collab_weight_vector_spec _ _ Hn Hnd Hrange)
    as (vec & Hvec & Hlen & Hin & Hout).
  exists vec. split_and!; [done..| |].
  - clear. induction stats as [|[key v] stats IH]; cbn [stats_set stats_get].
    + by rewrite decide_True.
    + destruct (decide (key = "collab_weights")) as [->|Hne];
        cbn [stats_get].
      * by rewrite decide_True.
      * by rewrite decide_False.
  - unfold report_step. rewrite Hvec. m_step. done.
Qed.

Lemma report_step_run cfg cw stats s vec :
  collab_weight_vector (num_users cfg) cw = Ok vec →
  report_step cfg cw stats s =
  (Ok tt, {| model := model s;
             trace := trace s ++
               [SendStats ROUND_STATS
                  (stats_set "collab_weights" (Vector vec) stats)] |}).
Proof. intros Hvec. unfold report_step. rewrite Hvec. by m_step. Qed.

(** The rest of a round once the weights are known and the aggregation
    step has run. *)
Lemma round_tail_run cfg node_id cw vec (s1 s2 : State Repr) reprs_dict :
  aggregate_step node_id reprs_dict cw s1 = (Ok tt, s2) →
  collab_weight_vector (num_users cfg) cw = Ok vec →
  (_ ← aggregate_step node_id reprs_dict cw;
   stats ← train_step (epochs_per_round cfg) [];
   report_step cfg cw stats) s1 =
  (Ok tt,
   {| model := (local_train (model s2) (epochs_per_round cfg)).1;
      trace := trace s2 ++ training_events (epochs_per_round cfg) ++
        [SendStats ROUND_STATS
           (training_stats (model s2) (epochs_per_round cfg) ++
            [("collab_weights", Vector vec)])] |}).
Proof.
  intros Hagg Hvec. cbv beta iota delta [mbind M_bind].
  rewrite Hagg, train_step_run, (report_step_run _ _ _ _ vec Hvec).
  cbn [model trace]. by rewrite <- app_assoc.
Qed.

Lemma filter_Forall_id {A : Type} (P : A → Prop) `{!∀ x, Decision (P x)}
    (l : list A) :
  Forall P l → filter P l = l.
Proof.
  induction 1 as [|x l Hx Hl IH]; [done|].
  rewrite filter_cons_True by done. by rewrite IH.
Qed.

Lemma collaborators_positive (raw : PyDict.t Z) (q : Q) :
  (0 < q)%Q → collaborators ((λ kw, (kw.1, q)) <$> raw) = keys raw.
Proof.
  intros Hq. unfold collaborators.
  rewrite (filter_Forall_id (λ kw : Z * Q, Qgt_bool kw.2 0 = true)).
  - apply keys_normalized.
  - apply Forall_fmap, Forall_true. intros kw. simpl. by apply Qgt_bool_true.
Qed.

(** A computed mapping whose collaborators are the node alone is the
    node with weight 1. *)
Lemma singleton_weights cfg node_id nc round draw cw :
  get_collaborator_weights cfg node_id nc round draw = Ok cw →
  collaborators cw = [node_id] → cw = [(node_id, 1%Q)].
Proof.
  intros (raw & _ & _ & Hv & ->)%get_collaborator_weights_inv.
  rewrite collaborators_positive by reflexivity.
  destruct raw as [|[k w] [|kw raw]]; [done| |done].
  unfold keys. cbn. by intros [= ->].
Qed.

Lemma aggregate_step_skip node_id reprs_dict cw s :
  collaborators cw = [node_id] →
  aggregate_step node_id reprs_dict cw s = (Ok tt, s).
Proof.
  intros Hc. unfold aggregate_step, only_self. rewrite Hc.
  rewrite !bool_decide_eq_true_2 by done. done.
Qed.


(** C3.  When the collaborators resolved from the computed weights are
    exactly the node itself, the aggregation step changes nothing: no
    call to [aggregate] or [set_model_weights] is made and the model
    stays the one the round started with.  The round still runs the
    local test, the local training and the second local test, on that
    unchanged model, and their results are the entries of the stats
    reported to the coordinator. *)
Theorem skip_aggregation_for_singleton env cfg node_id round s cw :
  get_collaborator_weights cfg node_id (num_collaborator cfg round) round
    (rng env round) = Ok cw →
  collaborators cw = [node_id] →
  1 ≤ node_id ≤ num_users cfg →
  let epochs := epochs_per_round cfg in
  let vec := <[Z.to_nat (node_id - 1) := 1%Q]>
               (replicate (Z.to_nat (num_users cfg)) 0%Q) in
  aggregate_step node_id (enumerate1 (reprs_share env round)) cw s = (Ok tt, s)
  ∧ client_round env cfg node_id round s =
    (Ok tt,
     {| model := (local_train (model s) epochs).1;
        trace := trace s ++ exchange_events (model s) ++
          training_events epochs ++
          [SendStats ROUND_STATS
             (training_stats (model s) epochs ++
              [("collab_weights", Vector vec)])] |}).
Proof.
  intros Hcw Hc Hid epochs vec. split; [by apply aggregate_step_skip|].
  rewrite client_round_unfold, Hcw. cbv zeta.
  erewrite round_tail_run with (vec := vec);
    [|by apply aggregate_step_skip|].
  - cbn [model trace]. by rewrite <- app_assoc.
  - rewrite (singleton_weights _ _ _ _ _ _ Hcw Hc).
    unfold collab_weight_vector, np_zeros. rewrite decide_False by lia.
    result_step. cbn [foldM]. rewrite np_setitem_in_range; [done|].
    rewrite length_replicate. lia.
Qed.










End client_rounds.

(** ** The coordinator *)

Section server_rounds.
Import FedAssServer.
Context {Repr SModel StatsDict : Type} `{!ServerUtils SModel StatsDict}.
Implicit Types (s : State Repr StatsDict) (srv : Server SModel)
  (env : ServerEnv Repr) (cfg : Config).

Lemma unevaluated_refl s : unevaluated s s.
Proof. split; [done|]. exists []. by rewrite app_nil_r. Qed.

Lemma unevaluated_trans s1 s2 s3 :
  unevaluated s1 s2 → unevaluated s2 s3 → unevaluated s1 s3.
Proof.
  intros [Hb1 (evs1 & Ht1 & Hq1)] [Hb2 (evs2 & Ht2 & Hq2)].
  split; [congruence|]. exists (evs1 ++ evs2).
  split; [by rewrite Ht2, Ht1, app_assoc|by apply Forall_app].
Qed.

Lemma preserves_ret {A : Type} (a : A) :
  preserves (mret a : M (State Repr StatsDict) A).
Proof. intros s. apply unevaluated_refl. Qed.

Lemma preserves_bind {A B : Type} (m : M (State Repr StatsDict) A)
    (f : A → M (State Repr StatsDict) B) :
  preserves m → (∀ a, preserves (f a)) → preserves (m ≫= f).
Proof.
  intros Hm Hf s. specialize (Hm s). cbv beta iota delta [mbind M_bind].
  destruct (m s) as [[a|e] s1]; cbn [snd] in *; [|done].
  eapply unevaluated_trans; [exact Hm|apply Hf].
Qed.

Lemma preserves_lift {A : Type} (r : result A) :
  preserves (lift r : M (State Repr StatsDict) A).
Proof. intros s. apply unevaluated_refl. Qed.

Lemma preserves_gets {A : Type} (f : State Repr StatsDict → A) :
  preserves (gets f).
Proof. intros s. apply unevaluated_refl. Qed.

Lemma preserves_emit (e : Event Repr StatsDict) :
  is_evaluation e = false → preserves (emit e).
Proof.
  intros He s. split; [done|]. exists [e]. split; [done|by constructor].
Qed.

Lemma preserves_set_round (r : Z) :
  preserves (set_round r : M (State Repr StatsDict) unit).
Proof. intros s. split; [done|]. exists []. cbn. by rewrite app_nil_r. Qed.

Lemma preserves_for_each {A : Type} (body : A → M (State Repr StatsDict) unit)
    (xs : list A) :
  (∀ x, preserves (body x)) → preserves (for_each body xs).
Proof.
  intros Hbody. induction xs as [|x xs IH]; cbn [for_each].
  - apply preserves_ret.
  - apply preserves_bind; [apply Hbody|by intros _].
Qed.

Lemma preserves_all_gather {A : Type} (tag : Tag) (data : A) :
  preserves (all_gather tag data : M (State Repr StatsDict) A).
Proof.
  apply preserves_bind; [by apply preserves_emit|intros _; apply preserves_ret].
Qed.

Create HintDb preserves.
#[local] Hint Resolve preserves_ret preserves_lift preserves_gets preserves_set_round
  preserves_all_gather : preserves.
#[local] Hint Extern 1 (preserves (emit _)) =>
  apply preserves_emit; reflexivity : preserves.
#[local] Hint Extern 2 (preserves (_ ≫= _)) =>
  apply preserves_bind; [|intros ?] : preserves.
#[local] Hint Extern 2 (preserves (for_each _ _)) =>
  apply preserves_for_each; intros ? : preserves.

Lemma preserves_single_round env srv :
  preserves (single_round env srv : M (State Repr StatsDict) _).
Proof. unfold single_round, send_representations. auto 40 with preserves. Qed.

Lemma preserves_round_loop env srv (rs : list Z) :
  ∀ stats, preserves (round_loop env srv stats rs : M (State Repr StatsDict) _).
Proof.
  induction rs as [|r rs IH]; intros stats; cbn [round_loop].
  - apply preserves_ret.
  - pose proof (preserves_single_round env srv).
    auto 20 with preserves.
Qed.

Lemma preserves_run_protocol env cfg srv :
  preserves (run_protocol env cfg srv : M (State Repr StatsDict) _).
Proof.
  unfold run_protocol. pose proof (preserves_round_loop env srv).
  auto 20 with preserves.
Qed.

(** C7 (as amended).  The server's [test] operation compares the
    accuracy of its model with the best accuracy so far and, when it is
    strictly greater, updates the best accuracy and saves the model.
    Neither [run_protocol] nor [single_round] calls it: whatever the run
    does, it leaves the best accuracy unchanged and makes no model test
    and no checkpoint save. *)
Theorem server_running_max_not_in_run env cfg srv s :
  let acc := (model_utils_test (smodel srv)).2 in
  test srv s =
    (Ok acc,
     if Qgt_bool acc (best_acc s) then
       {| best_acc := acc; round := round s;
          trace := trace s ++ [ModelTest; SaveModel (model_save_path srv)] |}
     else
       {| best_acc := best_acc s; round := round s;
          trace := trace s ++ [ModelTest] |})
  ∧ (let s' := (run_protocol env cfg srv s).2 in
     best_acc s' = best_acc s ∧
     ∃ evs, trace s' = trace s ++ evs ∧
            Forall (λ e, is_evaluation e = false) evs).
Proof.
  intros acc. split.
  - unfold test, acc. destruct (model_utils_test (smodel srv)) as [loss a].
    cbv beta iota delta [mbind mret M_bind M_ret gets emit set_best_acc].
    cbn [best_acc round trace snd].
    destruct (Qgt_bool a (best_acc s)); cbn [best_acc round trace];
      by rewrite <- ?app_assoc.
  - apply preserves_run_protocol.
Qed.
End server_rounds.

(** ** Further properties of the collaborator weights *)

Section more_weights.
Import PyDict PyDictFacts FedAssClient.
Context {float_lib : FloatLib}.
Implicit Types (cfg : Config) (node_id round : Z) (draw : list nat).

Lemma get_absent {V : Type} (k : Z) (d : PyDict.t V) :
  k ∉ keys d → get k d = Raise KeyError.
Proof.
  induction d as [|[k' v'] d IH]; [done|].
  unfold keys. rewrite fmap_cons, not_elem_of_cons. cbn [fst get].
  intros [Hne Hk]. rewrite decide_False by congruence. by apply IH.
Qed.

Lemma get_raises {V : Type} (k : Z) (d : PyDict.t V) e :
  get k d = Raise e → e = KeyError.
Proof.
  induction d as [|[k' v'] d IH]; cbn [get]; [congruence|].
  case_decide; [done|exact IH].
Qed.

Lemma py_mod_raises_zero (a b : Z) e :
  py_mod a b = Raise e → e = ZeroDivisionError.
Proof. unfold py_mod. case_decide; [|done]. by intros [= <-]. Qed.

Lemma floor_log2_raises (x : Z) e :
  floor_log2 x = Raise e → ∃ msg, e = ValueError msg.
Proof.
  unfold floor_log2. case_decide; [|by case_decide]. intros [= <-]. by eexists.
Qed.

Lemma direct_expo_collab_id_raises (node_id power n : Z) e :
  direct_expo_collab_id node_id power n = Raise e → e ≠ IndexError.
Proof.
  unfold direct_expo_collab_id. case_decide.
  - destruct (py_mod _ _) as [r|e0] eqn:Hm; result_step; [done|].
    apply py_mod_raises_zero in Hm. congruence.
  - destruct (float_collab_id _ _ _); congruence.
Qed.

Lemma py_mod_raises (a b : Z) e : py_mod a b = Raise e → e = ZeroDivisionError.
Proof. unfold py_mod. case_decide; [|done]. by intros [= <-]. Qed.

Lemma np_random_choice_raises (a : list Z) (size : Z) draw e :
  np_random_choice a size draw = Raise e → ∃ msg, e = ValueError msg.
Proof.
  unfold np_random_choice. repeat case_decide; [..|done];
    intros [= <-]; by eexists.
Qed.

(** Every strategy returns distinct keys with one common weight, the
    inverse of the number of keys. *)
Theorem weights_uniform cfg node_id nc round draw cw :
  get_collaborator_weights cfg node_id nc round draw = Ok cw →
  NoDup (keys cw) ∧ Forall (λ kw, kw.2 = (1 # Pos.of_nat (length cw))%Q) cw.
Proof.
  intros (raw & _ & Hk & _ & ->)%get_collaborator_weights_inv. split.
  - by rewrite keys_normalized.
  - apply Forall_fmap, Forall_true. intros kw. simpl. by rewrite length_fmap.
Qed.

(** The division of line 43 never raises: the weight computation raises
    exactly when the strategy branch does, with the same exception, and
    that exception is never an [IndexError]. *)
Theorem normalization_never_raises cfg node_id nc round draw e :
  (get_collaborator_weights cfg node_id nc round draw = Raise e
   ↔ strategy_weights cfg node_id nc round draw = Raise e)
  ∧ (get_collaborator_weights cfg node_id nc round draw = Raise e →
     e ≠ IndexError).
Proof.
  assert (get_collaborator_weights cfg node_id nc round draw = Raise e
          ↔ strategy_weights cfg node_id nc round draw = Raise e) as Hiff.
  { unfold get_collaborator_weights.
    destruct (strategy_weights _ _ _ _ _) as [raw|e'] eqn:Hraw; result_step.
    - destruct (strategy_weights_ones _ _ _ _ _ _ Hraw) as [_ Hv].
      rewrite (normalize_ones _ Hv). split; discriminate.
    - split; intros [= ->]; done. }
  split; [exact Hiff|]. rewrite Hiff. clear Hiff.
  unfold strategy_weights. repeat case_decide.
  - destruct (get node_id _) as [l|e0] eqn:Hg; result_step; [done|].
    apply get_raises in Hg. congruence.
  - destruct (floor_log2 _) as [period|e0] eqn:E1; result_step;
      [|apply floor_log2_raises in E1 as [msg ->]; congruence].
    destruct (py_mod round _) as [power|e0] eqn:E2; result_step;
      [|apply py_mod_raises in E2; congruence].
    destruct (direct_expo_collab_id _ _ _) as [r|e0] eqn:E3; result_step;
      [done|apply direct_expo_collab_id_raises in E3; congruence].
  - destruct (get node_id _) as [l|e0] eqn:Hg; result_step;
      [|apply get_raises in Hg; congruence].
    destruct (np_random_choice _ _ _) as [sample|e0] eqn:Hc; result_step;
      [done|apply np_random_choice_raises in Hc as [msg ->]; congruence].
  - congruence.
Qed.

(** Under [fixed] and [random_among_assigned] a node without an entry in
    [assigned_collaborators] gets a [KeyError]. *)
Theorem missing_assignment_raises_KeyError cfg node_id nc round draw :
  strategy cfg = "fixed" ∨ strategy cfg = "random_among_assigned" →
  node_id ∉ keys (assigned_collaborators cfg) →
  get_collaborator_weights cfg node_id nc round draw = Raise KeyError.
Proof.
  intros Hs Hk. apply get_absent in Hk.
  unfold get_collaborator_weights, strategy_weights.
  destruct Hs as [Hs|Hs]; rewrite Hs.
  - rewrite decide_True by done. by rewrite Hk.
  - do 2 rewrite decide_False by done. rewrite decide_True by done.
    by rewrite Hk.
Qed.

(** Under [random_among_assigned] a request for more collaborators than
    the node has assigned, or for a negative number of them, raises a
    [ValueError], whatever the generator would draw. *)
Theorem random_sample_size_rejected cfg node_id nc round draw universe :
  strategy cfg = "random_among_assigned" →
  get node_id (assigned_collaborators cfg) = Ok universe →
  Z.of_nat (length universe) < nc ∨ nc < 0 →
  ∃ msg, get_collaborator_weights cfg node_id nc round draw
         = Raise (ValueError msg).
Proof.
  intros Hs Hu Hnc. unfold get_collaborator_weights, strategy_weights.
  rewrite Hs. do 2 rewrite decide_False by done. rewrite decide_True by done.
  rewrite Hu. result_step. unfold np_random_choice.
  repeat case_decide; result_step; try by eexists. lia.
Qed.
End more_weights.

Section more_strategies.
Import PyDict PyDictFacts FedAssClient.
Context {float_lib : FloatLib}.
Implicit Types (cfg : Config) (node_id round : Z) (draw : list nat).

Lemma NoDup_all_equal (x : Z) (l : list Z) :
  NoDup l → l ≠ [] → (∀ y, y ∈ l → y = x) → l = [x].
Proof.
  intros Hnd Hne Hall. destruct l as [|a [|b l]]; [done| |].
  - f_equal. apply Hall, elem_of_cons. by left.
  - exfalso. apply NoDup_cons in Hnd as [Hab _]. apply Hab.
    rewrite (Hall a), (Hall b); [apply elem_of_cons; by left|..].
    + apply elem_of_cons. right. apply elem_of_cons. by left.
    + apply elem_of_cons. by left.
Qed.

(** Under [fixed] the collaborators of line 80 are the node alone exactly
    when its assigned list is not empty and names nobody but the node.  An
    empty assigned list gives no collaborator at all, which is not the
    skip case of line 82. *)
Theorem fixed_skips_iff_assigned_only_self cfg node_id nc round draw assigned cw :
  strategy cfg = "fixed" →
  get node_id (assigned_collaborators cfg) = Ok assigned →
  get_collaborator_weights cfg node_id nc round draw = Ok cw →
  (collaborators cw = [node_id]
   ↔ assigned ≠ [] ∧ ∀ id, id ∈ assigned → id = node_id)
  ∧ (assigned = [] → collaborators cw = []
                     ∧ only_self node_id (collaborators cw) = false).
Proof.
  intros Hs Ha Hcw.
  pose proof Hcw as (raw & Hraw & Hk & Hv & ->)%get_collaborator_weights_inv.
  rewrite collaborators_positive by reflexivity.
  revert Hraw. unfold strategy_weights. rewrite decide_True by done.
  rewrite Ha. result_step. intros <-%Ok_inj. split; [split|].
  - intros Hkeys. split.
    + intros ->. discriminate.
    + intros id Hid%(keys_of_keys_elem _ (1:Z)). rewrite Hkeys in Hid.
      by apply list_elem_of_singleton in Hid.
  - intros [Hne Hall]. apply NoDup_all_equal; [done| |].
    + destruct assigned as [|a l]; [done|]. intros Hnil.
      assert (a ∈ keys (of_keys (a :: l) (1:Z))) as Hin.
      { apply keys_of_keys_elem, elem_of_cons. by left. }
      rewrite Hnil in Hin. by apply elem_of_nil in Hin.
    + intros y Hy%keys_of_keys_elem. by apply Hall.
  - intros ->. done.
Qed.

(** Under [random_among_assigned], whatever is drawn, the node itself is
    a key of the result, every other key is one of its assigned
    collaborators, and there are at most [num_collaborator + 1] keys. *)
Theorem random_keys_self_and_assigned cfg node_id nc round draw universe :
  strategy cfg = "random_among_assigned" →
  get node_id (assigned_collaborators cfg) = Ok universe →
  valid_draw (length universe) nc draw →
  ∃ cw, get_collaborator_weights cfg node_id nc round draw = Ok cw
    ∧ node_id ∈ keys cw
    ∧ (∀ k, k ∈ keys cw → k = node_id ∨ k ∈ universe)
    ∧ Z.of_nat (length cw) ≤ nc + 1.
Proof.
  intros Hs Hu Hdraw. pose proof Hdraw as (Hd & Hlt & Hlen).
  unfold get_collaborator_weights, strategy_weights.
  rewrite Hs. do 2 rewrite decide_False by done. rewrite decide_True by done.
  rewrite Hu. result_step. rewrite np_random_choice_valid by done. result_step.
  set (sample := (λ i, nth i universe 0) <$> draw).
  destruct (of_keys_invariant sample (1:Z)) as [Hnd Hones].
  rewrite normalize_ones by (by apply (Forall_values_set (λ x, x = 1))).
  eexists. split; [done|]. rewrite keys_normalized, length_fmap, keys_set.
  assert (∀ k, k ∈ keys (of_keys sample (1:Z)) → k ∈ universe) as Hsub.
  { intros k Hk%keys_of_keys_elem. unfold sample in Hk.
    apply list_elem_of_fmap in Hk as (i & -> & Hi).
    rewrite Forall_forall in Hlt. specialize (Hlt i Hi).
    destruct (lookup_lt_is_Some_2 universe i Hlt) as [x Hx].
    rewrite (nth_lookup_Some _ _ _ _ Hx). by eapply list_elem_of_lookup_2. }
  assert (length (of_keys sample (1:Z)) ≤ length draw)%nat as Hle.
  { replace (length (of_keys sample (1:Z))) with (length (keys (of_keys sample (1:Z))))
      by apply length_fmap.
    replace (length draw) with (length sample) by apply length_fmap.
    apply submseteq_length, NoDup_submseteq; [done|].
    intros k Hk. by apply keys_of_keys_elem in Hk. }
  split_and!.
  - case_decide; [done|]. apply elem_of_app. right.
    by apply list_elem_of_singleton.
  - intros k. case_decide.
    + intros Hk. right. by apply Hsub.
    + intros [Hk| ->%list_elem_of_singleton]%elem_of_app; [right|by left].
      by apply Hsub.
  - pose proof (keys_set node_id (1:Z) (of_keys sample 1)) as Hks.
    assert (length (set node_id 1 (of_keys sample (1:Z)))
            = length (keys (set node_id 1 (of_keys sample (1:Z))))) as ->
      by (symmetry; apply length_fmap).
    rewrite Hks. case_decide.
    + unfold keys. rewrite length_fmap. lia.
    + rewrite length_app. unfold keys. rewrite length_fmap. cbn [length]. lia.
Qed.

(** Within one period of [direct_expo] the node is paired with a
    different peer in each round: with at most [2^47] nodes and a node
    identity of magnitude at most [2^52] (the range on which the float
    arithmetic of lines 25-27 is exact), rounds that differ modulo
    [floor(log2(num_users - 1))] give different results. *)
Theorem direct_expo_peers_differ_within_period cfg node_id nc r1 r2 draw :
  strategy cfg = "direct_expo" → 3 ≤ num_users cfg →
  num_users cfg ≤ log2_exact_bound →
  - float_exact_bound ≤ node_id ≤ float_exact_bound →
  r1 mod Z.log2 (num_users cfg - 1) ≠ r2 mod Z.log2 (num_users cfg - 1) →
  get_collaborator_weights cfg node_id nc r1 draw
  ≠ get_collaborator_weights cfg node_id nc r2 draw.
Proof.
  intros Hs Hn Hub Hid Hne. rewrite !direct_expo_result by done.
  intros Heq. apply Ok_inj in Heq.
  assert ((node_id + 2 ^ (r1 mod Z.log2 (num_users cfg - 1))) mod num_users cfg
          = (node_id + 2 ^ (r2 mod Z.log2 (num_users cfg - 1))) mod num_users cfg)
    as Hmod by (injection Heq; lia).
  clear Heq. pose proof (log2_pred_pos _ Hn) as Hperiod.
  set (n := num_users cfg) in *. set (period := Z.log2 (n - 1)) in *.
  assert (2 ^ period ≤ n - 1) as Hlog by (apply Z.log2_spec; lia).
  assert (∀ r, 0 < 2 ^ (r mod period) ∧ 2 * 2 ^ (r mod period) ≤ 2 ^ period)
    as Hstep.
  { intros r. pose proof (Z.mod_pos_bound r period ltac:(lia)). split.
    - apply Z.pow_pos_nonneg; lia.
    - rewrite <- Z.pow_succ_r by lia. apply Z.pow_le_mono_r; lia. }
  pose proof (Hstep r1) as [Ha1 Ha2]. pose proof (Hstep r2) as [Hb1 Hb2].
  assert (2 ^ (r1 mod period) = 2 ^ (r2 mod period)) as Hpow.
  { set (a := 2 ^ (r1 mod period)) in *. set (b := 2 ^ (r2 mod period)) in *.
    pose proof (Z.div_mod (node_id + a) n ltac:(lia)) as Hda.
    pose proof (Z.div_mod (node_id + b) n ltac:(lia)) as Hdb.
    rewrite Hmod in Hda.
    set (qa := (node_id + a) / n) in *. set (qb := (node_id + b) / n) in *.
    assert (a - b = n * (qa - qb)) as Hdiff by lia.
    destruct (Z.lt_trichotomy qa qb) as [?|[?|?]]; nia. }
  apply Hne. apply (Z.pow_inj_r 2); [lia| | |done].
  - apply Z.mod_pos_bound; lia.
  - apply Z.mod_pos_bound; lia.
Qed.

End more_strategies.

(** ** Further properties of the client round loop *)

Section more_client_rounds.
Import PyDict PyDictFacts FedAssClient.
Context {Repr : Type} `{!Trainer Repr} {float_lib : FloatLib}.
Implicit Types (cfg : Config) (node_id round : Z) (s : State Repr)
  (cw : PyDict.t Q) (env : Env Repr).

Lemma aggregate_step_run node_id reprs_dict cw s :
  aggregate_step node_id reprs_dict cw s =
  (Ok tt, {| model := blended_model node_id reprs_dict cw (model s);
             trace := trace s ++ blend_events node_id reprs_dict cw |}).
Proof.
  unfold aggregate_step, blended_model, blend_events.
  destruct (negb (only_self node_id (collaborators cw))).
  - m_step. by rewrite <- app_assoc.
  - destruct s. cbn. by rewrite app_nil_r.
Qed.

(** A round, step by step: it stops at the weight computation or at the
    construction of the report vector, or it completes. *)
Lemma client_round_run env cfg node_id round s :
  let reprs_dict := enumerate1 (reprs_share env round) in
  let epochs := epochs_per_round cfg in
  client_round env cfg node_id round s =
  match get_collaborator_weights cfg node_id (num_collaborator cfg round)
          round (rng env round) with
  | Raise e =>
      (Raise e, {| model := model s;
                   trace := trace s ++ exchange_events (model s) |})
  | Ok cw =>
      let m := blended_model node_id reprs_dict cw (model s) in
      let tr := trace s ++ exchange_events (model s) ++
                blend_events node_id reprs_dict cw ++ training_events epochs in
      match collab_weight_vector (num_users cfg) cw with
      | Raise e => (Raise e, {| model := (local_train m epochs).1; trace := tr |})
      | Ok vec =>
          (Ok tt,
           {| model := (local_train m epochs).1;
              trace := tr ++
                [SendStats ROUND_STATS
                   (training_stats m epochs ++ [("collab_weights", Vector vec)])] |})
      end
  end.
Proof.
  intros reprs_dict epochs. rewrite client_round_unfold. cbv zeta.
  destruct (get_collaborator_weights _ _ _ _ _) as [cw|e]; [|done].
  cbv beta iota delta [mbind M_bind].
  rewrite aggregate_step_run, train_step_run. cbn [model trace].
  unfold report_step. fold reprs_dict epochs.
  destruct (collab_weight_vector (num_users cfg) cw) as [vec|e]; m_step.
  - by rewrite <- !app_assoc.
  - by rewrite <- !app_assoc.
Qed.

Lemma np_setitem_indexable (vec : list Q) (k : Z) (v : Q) :
  indexable (Z.of_nat (length vec)) k →
  np_setitem vec (k - 1) v = Ok (<[slot (Z.of_nat (length vec)) k := v]> vec).
Proof.
  unfold indexable, np_setitem, slot. intros Hk.
  destruct (decide (1 ≤ k)).
  - by rewrite decide_True by lia.
  - rewrite decide_False by lia. by rewrite decide_True by lia.
Qed.

Lemma np_setitem_not_indexable (vec : list Q) (k : Z) (v : Q) :
  ¬ indexable (Z.of_nat (length vec)) k →
  np_setitem vec (k - 1) v = Raise IndexError.
Proof.
  unfold indexable, np_setitem. intros Hk.
  rewrite decide_False by lia. by rewrite decide_False by lia.
Qed.

Lemma slot_lt (n k : Z) : indexable n k → (slot n k < Z.to_nat n)%nat.
Proof. unfold indexable, slot. intros Hk. case_decide; lia. Qed.

Lemma foldM_setitem_cases cw : ∀ vec : list Q,
  (Forall (indexable (Z.of_nat (length vec))) (keys cw) →
   ∃ vec', foldM (λ vec '(k, v), np_setitem vec (k - 1) v) vec cw = Ok vec'
           ∧ length vec' = length vec)
  ∧ (¬ Forall (indexable (Z.of_nat (length vec))) (keys cw) →
     foldM (λ vec '(k, v), np_setitem vec (k - 1) v) vec cw = Raise IndexError).
Proof.
  induction cw as [|[k v] cw IH]; intros vec.
  - split; [by exists vec|]. intros Hn. destruct Hn. constructor.
  - unfold keys. rewrite fmap_cons, Forall_cons. fold (keys cw). cbn [fst foldM].
    destruct (decide (indexable (Z.of_nat (length vec)) k)) as [Hk|Hk].
    + rewrite np_setitem_indexable by done. result_step.
      destruct (IH (<[slot (Z.of_nat (length vec)) k := v]> vec)) as [IHok IHerr].
      rewrite length_insert in IHok, IHerr. split.
      * intros [_ Hall]. by apply IHok.
      * intros Hn. apply IHerr. tauto.
    + rewrite np_setitem_not_indexable by done. split; [tauto|done].
Qed.

Lemma collab_weight_vector_cases (n : Z) cw :
  0 ≤ n →
  (Forall (indexable n) (keys cw) →
   ∃ vec, collab_weight_vector n cw = Ok vec ∧ length vec = Z.to_nat n)
  ∧ (¬ Forall (indexable n) (keys cw) →
     collab_weight_vector n cw = Raise IndexError).
Proof.
  intros Hn. unfold collab_weight_vector, np_zeros.
  rewrite decide_False by lia. result_step.
  destruct (foldM_setitem_cases cw (replicate (Z.to_nat n) 0%Q)) as [Hok Herr].
  rewrite length_replicate, Z2Nat.id in Hok, Herr by done. done.
Qed.

(** The vector of lines 104-106 can be built exactly when every key [k]
    of the weights has [k - 1] inside a vector of length [num_users],
    counting negative indices from the end; any other key raises an
    [IndexError]. *)
Theorem collab_weight_vector_indexable (n : Z) cw :
  0 ≤ n →
  (Forall (indexable n) (keys cw) →
   ∃ vec, collab_weight_vector n cw = Ok vec ∧ length vec = Z.to_nat n)
  ∧ (¬ Forall (indexable n) (keys cw) →
     collab_weight_vector n cw = Raise IndexError).
Proof.
  intros Hn. destruct (collab_weight_vector_cases n cw Hn) as [Hok Herr].
  split; [exact Hok|exact Herr].
Qed.

Lemma foldM_setitem_slots cw : ∀ vec : list Q,
  Forall (indexable (Z.of_nat (length vec))) (keys cw) →
  NoDup (slot (Z.of_nat (length vec)) <$> keys cw) →
  ∃ vec', foldM (λ vec '(k, v), np_setitem vec (k - 1) v) vec cw = Ok vec'
    ∧ length vec' = length vec
    ∧ (∀ k w, (k, w) ∈ cw → vec' !! slot (Z.of_nat (length vec)) k = Some w)
    ∧ (∀ i, i ∉ slot (Z.of_nat (length vec)) <$> keys cw → vec' !! i = vec !! i).
Proof.
  induction cw as [|[k v] cw IH]; intros vec Hrange Hnd.
  - exists vec. split_and!; [done|done| |done].
    intros k w Hin. by apply elem_of_nil in Hin.
  - unfold keys in Hrange, Hnd. rewrite fmap_cons in Hrange, Hnd.
    rewrite fmap_cons in Hnd. fold (keys cw) in Hrange, Hnd. cbn [fst] in *.
    apply Forall_cons in Hrange as [Hk Hrange].
    apply NoDup_cons in Hnd as [Hfresh Hnd].
    cbn [foldM]. rewrite np_setitem_indexable by done. result_step.
    set (n := Z.of_nat (length vec)) in *.
    destruct (IH (<[slot n k := v]> vec)) as (vec' & Hrun & Hlen & Hin & Hout).
    { by rewrite length_insert. }
    { by rewrite length_insert. }
    rewrite length_insert in Hlen, Hin, Hout. fold n in Hin, Hout.
    exists vec'. split_and!; [done|done| |].
    + intros k' w [[= -> ->]|Hin']%elem_of_cons; [|by apply Hin].
      rewrite Hout by done. apply list_lookup_insert_eq.
      pose proof (slot_lt n k Hk). lia.
    + intros i Hi. unfold keys in Hi. rewrite !fmap_cons in Hi.
      apply not_elem_of_cons in Hi as [Hne Hi]. cbn [fst] in Hne.
      rewrite Hout by done. by apply list_lookup_insert_ne.
Qed.

(** Where the weights land in the vector: with the keys indexable and
    no two of them on the same position, the weight of key [k] is at
    position [k - 1] for [k ≥ 1] and at position [num_users + k - 1],
    counted from the end, for [k ≤ 0]; every other position holds 0. *)
Theorem collab_weight_vector_slots (n : Z) cw :
  0 ≤ n →
  Forall (indexable n) (keys cw) →
  NoDup (slot n <$> keys cw) →
  ∃ vec, collab_weight_vector n cw = Ok vec
    ∧ length vec = Z.to_nat n
    ∧ (∀ k w, (k, w) ∈ cw → vec !! slot n k = Some w)
    ∧ (∀ i, (i < Z.to_nat n)%nat → i ∉ slot n <$> keys cw →
            vec !! i = Some 0%Q).
Proof.
  intros Hn Hrange Hnd. unfold collab_weight_vector, np_zeros.
  rewrite decide_False by lia. result_step.
  destruct (foldM_setitem_slots cw (replicate (Z.to_nat n) 0%Q))
    as (vec & Hrun & Hlen & Hin & Hout).
  { by rewrite length_replicate, Z2Nat.id. }
  { by rewrite length_replicate, Z2Nat.id. }
  rewrite length_replicate in Hlen. rewrite length_replicate, Z2Nat.id in Hin, Hout by done.
  exists vec. split_and!; [done..|].
  intros i Hi Hnot. rewrite Hout by done. by apply lookup_replicate_2.
Qed.

(** A round whose weights name a key outside the vector fails only at
    the report: by then the node has adopted the aggregate and trained,
    and nothing is reported to the coordinator. *)
Theorem round_fails_at_report_after_training env cfg node_id round s cw :
  get_collaborator_weights cfg node_id (num_collaborator cfg round) round
    (rng env round) = Ok cw →
  0 ≤ num_users cfg →
  ¬ Forall (indexable (num_users cfg)) (keys cw) →
  let reprs_dict := enumerate1 (reprs_share env round) in
  let epochs := epochs_per_round cfg in
  client_round env cfg node_id round s =
  (Raise IndexError,
   {| model := (local_train (blended_model node_id reprs_dict cw (model s))
                  epochs).1;
      trace := trace s ++ exchange_events (model s) ++
               blend_events node_id reprs_dict cw ++ training_events epochs |}).
Proof.
  intros Hcw Hn Hbad reprs_dict epochs.
  rewrite client_round_run, Hcw. cbv zeta.
  destruct (collab_weight_vector_cases (num_users cfg) cw Hn) as [_ Herr].
  by rewrite (Herr Hbad).
Qed.

Lemma reports_app (tr1 tr2 : list (Event Repr)) :
  reports (tr1 ++ tr2) = (reports tr1 + reports tr2)%nat.
Proof. unfold reports. by rewrite filter_app, length_app. Qed.

Lemma trainings_app (tr1 tr2 : list (Event Repr)) :
  trainings (tr1 ++ tr2) = (trainings tr1 + trainings tr2)%nat.
Proof. unfold trainings. by rewrite filter_app, length_app. Qed.

Lemma counts_exchange (m : Repr) :
  reports (exchange_events m) = 0%nat ∧ trainings (exchange_events m) = 0%nat.
Proof. split; reflexivity. Qed.

Lemma counts_blend node_id (reprs_dict : PyDict.t Repr) cw :
  reports (blend_events node_id reprs_dict cw) = 0%nat
  ∧ trainings (blend_events node_id reprs_dict cw) = 0%nat.
Proof. unfold blend_events. destruct (negb _); split; reflexivity. Qed.

Lemma counts_training (epochs : Z) :
  reports (training_events epochs : list (Event Repr)) = 0%nat
  ∧ trainings (training_events epochs : list (Event Repr)) = 1%nat.
Proof. split; reflexivity. Qed.

Lemma reports_send (stats : Stats) :
  reports [SendStats ROUND_STATS stats : Event Repr] = 1%nat.
Proof. reflexivity. Qed.

Lemma trainings_send (stats : Stats) :
  trainings [SendStats ROUND_STATS stats : Event Repr] = 0%nat.
Proof. reflexivity. Qed.

(** What one round adds to the counts of reports and trainings. *)
Lemma client_round_counts env cfg node_id round s :
  let out := client_round env cfg node_id round s in
  match out.1 with
  | Ok _ =>
      reports (trace out.2) = S (reports (trace s))
      ∧ trainings (trace out.2) = S (trainings (trace s))
  | Raise _ =>
      reports (trace out.2) = reports (trace s)
      ∧ (trainings (trace out.2) = trainings (trace s)
         ∨ trainings (trace out.2) = S (trainings (trace s)))
  end.
Proof.
  cbv zeta. rewrite client_round_run. cbv zeta.
  pose proof (counts_exchange (model s)) as [He1 He2].
  pose proof (counts_training (epochs_per_round cfg)) as [Ht1 Ht2].
  destruct (get_collaborator_weights _ _ _ _ _) as [cw|e]; cbn [fst snd trace].
  - pose proof (counts_blend node_id (enumerate1 (reprs_share env round)) cw)
      as [Hb1 Hb2].
    destruct (collab_weight_vector _ _) as [vec|e]; cbn [fst snd trace].
    + rewrite !reports_app, !trainings_app, He1, He2, Hb1, Hb2, Ht1, Ht2.
      rewrite reports_send, trainings_send. lia.
    + rewrite !reports_app, !trainings_app, He1, He2, Hb1, Hb2, Ht1, Ht2. lia.
  - rewrite !reports_app, !trainings_app, He1, He2. lia.
Qed.

Lemma for_each_round_counts env cfg node_id (rs : list Z) : ∀ s,
  let out := for_each (client_round env cfg node_id) rs s in
  match out.1 with
  | Ok _ =>
      reports (trace out.2) = (reports (trace s) + length rs)%nat
      ∧ trainings (trace out.2) = (trainings (trace s) + length rs)%nat
  | Raise _ =>
      ∃ completed, (completed < length rs)%nat
        ∧ reports (trace out.2) = (reports (trace s) + completed)%nat
        ∧ (trainings (trace out.2) = (trainings (trace s) + completed)%nat
           ∨ trainings (trace out.2) = S (trainings (trace s) + completed))
  end.
Proof.
  induction rs as [|r rs IH]; intros s; cbv zeta.
  - cbn. lia.
  - cbn [for_each]. cbv beta iota delta [mbind M_bind].
    pose proof (client_round_counts env cfg node_id r s) as Hr. cbv zeta in Hr.
    destruct (client_round env cfg node_id r s) as [[[]|e] s1]; cbn [fst snd] in *.
    + specialize (IH s1). cbv zeta in IH.
      destruct (for_each _ rs s1) as [[[]|e] s2]; cbn [fst snd length] in *.
      * lia.
      * destruct IH as (completed & Hlt & Hrep & Htr).
        exists (S completed). split; [lia|]. split; lia.
    + exists 0%nat. cbn [length]. split; [lia|]. split; lia.
Qed.

(** A run reports once and trains once for every round it completes: a
    run that returns has done both for each of its rounds; a run that
    raises has reported for the rounds before the failing one only, and
    has trained at most once more than it reported. *)
Theorem run_reports_each_completed_round env cfg node_id s :
  let out := run_protocol env cfg node_id s in
  let total := Z.to_nat (rounds cfg - default 0 (start_round cfg)) in
  match out.1 with
  | Ok _ =>
      reports (trace out.2) = (reports (trace s) + total)%nat
      ∧ trainings (trace out.2) = (trainings (trace s) + total)%nat
  | Raise _ =>
      ∃ completed, (completed < total)%nat
        ∧ reports (trace out.2) = (reports (trace s) + completed)%nat
        ∧ (trainings (trace out.2) = (trainings (trace s) + completed)%nat
           ∨ trainings (trace out.2) = S (trainings (trace s) + completed))
  end.
Proof.
  cbv zeta. unfold run_protocol.
  pose proof (for_each_round_counts env cfg node_id
    (py_range (default 0 (start_round cfg)) (rounds cfg)) s) as H.
  cbv zeta in H. unfold py_range in H at 2 3 4 5 6.
  rewrite !length_seqZ in H. exact H.
Qed.



(** Under [random_among_assigned] a request for no collaborator returns
    the node alone with weight 1, and the aggregation step then does
    nothing. *)
Theorem random_zero_collaborators_skips cfg node_id round draw universe :
  strategy cfg = "random_among_assigned" →
  get node_id (assigned_collaborators cfg) = Ok universe →
  valid_draw (length universe) 0 draw →
  get_collaborator_weights cfg node_id 0 round draw = Ok [(node_id, 1%Q)]
  ∧ ∀ (reprs_dict : PyDict.t Repr) s,
      aggregate_step node_id reprs_dict [(node_id, 1%Q)] s = (Ok tt, s).
Proof.
  intros Hs Hu Hdraw. split.
  - pose proof Hdraw as (_ & _ & Hlen).
    assert (draw = []) as -> by (destruct draw; [done|cbn in Hlen; lia]).
    unfold get_collaborator_weights, strategy_weights.
    rewrite Hs. do 2 rewrite decide_False by done. rewrite decide_True by done.
    rewrite Hu. result_step. rewrite np_random_choice_valid by done. reflexivity.
  - intros reprs_dict s. by apply aggregate_step_skip.
Qed.

Lemma get_imap_offset (j : nat) (reprs : list Repr) (k : Z) :
  get k (imap (λ i v, (Z.of_nat (S (j + i)), v)) reprs) =
  if decide (Z.of_nat j < k ≤ Z.of_nat (j + length reprs)) then
    match reprs !! Z.to_nat (k - Z.of_nat j - 1) with
    | Some r => Ok r
    | None => Raise KeyError
    end
  else Raise KeyError.
Proof.
  revert j. induction reprs as [|r reprs IH]; intros j.
  - cbn. rewrite decide_False by lia. done.
  - rewrite imap_cons. cbn [get].
    destruct (decide (Z.of_nat (S (j + 0)) = k)) as [Hk|Hk].
    + rewrite decide_True by (cbn [length]; lia).
      replace (Z.to_nat (k - Z.of_nat j - 1)) with 0%nat by lia. done.
    + rewrite (imap_ext _ (λ i v, (Z.of_nat (S (S j + i)), v)))
        by (intros; cbn; do 2 f_equal; lia).
      rewrite IH. cbn [length].
      destruct (decide (Z.of_nat (S j) < k ≤ Z.of_nat (S j + length reprs)))
        as [Hin|Hout].
      * rewrite decide_True by lia.
        replace (Z.to_nat (k - Z.of_nat j - 1))
          with (S (Z.to_nat (k - Z.of_nat (S j) - 1))) by lia. done.
      * rewrite decide_False by lia. done.
Qed.

(** The dictionary of line 71 files the representation received at
    position [i] under node identity [i + 1]: looking up an identity
    between 1 and the number of representations gives the representation
    at the position before it, and any other identity is a [KeyError]. *)
Theorem enumerate1_get (reprs : list Repr) (k : Z) :
  (1 ≤ k ≤ Z.of_nat (length reprs) →
   ∃ r, reprs !! Z.to_nat (k - 1) = Some r ∧ get k (enumerate1 reprs) = Ok r)
  ∧ (¬ (1 ≤ k ≤ Z.of_nat (length reprs)) →
     get k (enumerate1 reprs) = Raise KeyError).
Proof.
  unfold enumerate1.
  rewrite (imap_ext _ (λ i v, (Z.of_nat (S (0 + i)), v))) by done.
  rewrite get_imap_offset. cbn [Nat.add Z.of_nat]. split.
  - intros Hk. rewrite decide_True by lia.
    destruct (lookup_lt_is_Some_2 reprs (Z.to_nat (k - 1))) as [r Hr]; [lia|].
    exists r. split; [done|].
    replace (Z.to_nat (k - Z.of_nat 0 - 1)) with (Z.to_nat (k - 1)) by lia.
    by rewrite Hr.
  - intros Hk. by rewrite decide_False by lia.
Qed.

Lemma np_setitem_length (vec vec' : list Q) (i : Z) (v : Q) :
  np_setitem vec i v = Ok vec' → length vec' = length vec.
Proof.
  unfold np_setitem. repeat case_decide; [| |done];
    intros <-%Ok_inj; apply length_insert.
Qed.

Lemma collab_weight_vector_length (n : Z) cw vec :
  collab_weight_vector n cw = Ok vec → length vec = Z.to_nat n.
Proof.
  unfold collab_weight_vector, np_zeros. case_decide; [done|]. result_step.
  rewrite <- (length_replicate (Z.to_nat n) 0%Q) at 2.
  generalize (replicate (Z.to_nat n) 0%Q). revert vec.
  induction cw as [|[k v] cw IH]; intros vec zeros; cbn [foldM].
  - by intros <-%Ok_inj.
  - destruct (np_setitem zeros (k - 1) v) as [zeros'|e] eqn:Hset; result_step;
      [|done].
    intros Hrun%IH. by rewrite Hrun, (np_setitem_length _ _ _ _ Hset).
Qed.

(** Whatever the strategy, a round that completes ends by sending, on
    [ROUND_STATS], stats with exactly the five entries of lines 96-107 in
    that order; the collaborator-weight vector among them has length
    [num_users], and both accuracies read by the coordinator's log lines
    are present. *)
Theorem completed_round_reports_full_stats env cfg node_id round s s' :
  client_round env cfg node_id round s = (Ok tt, s') →
  ∃ stats vec,
    last (trace s') = Some (SendStats ROUND_STATS stats)
    ∧ stats.*1 = ["test_acc_before_training"; "train_loss"; "train_acc";
                  "test_acc_after_training"; "collab_weights"]
    ∧ stats_get "collab_weights" stats = Ok (Vector vec)
    ∧ length vec = Z.to_nat (num_users cfg)
    ∧ has_accuracies stats.
Proof.
  rewrite client_round_run. cbv zeta.
  destruct (get_collaborator_weights _ _ _ _ _) as [cw|e]; [|done].
  destruct (collab_weight_vector (num_users cfg) cw) as [vec|e] eqn:Hvec; [|done].
  intros [= <-]. eexists _, vec. cbn [trace].
  rewrite last_snoc. split; [done|]. split; [done|].
  split; [done|]. split; [by eapply collab_weight_vector_length|].
  split; by eexists.
Qed.
End more_client_rounds.

(** ** Further properties of the coordinator *)

(** Run the binds of the coordinator's monad on the current state. *)
Ltac s_step :=
  cbv beta iota delta
    [mbind mret M_bind M_ret lift gets
     FedAssServer.emit FedAssServer.set_best_acc FedAssServer.set_round
     FedAssServer.all_gather];
  cbn [FedAssServer.best_acc FedAssServer.round FedAssServer.trace fst snd].

Section more_server_rounds.
Import FedAssServer.
Context {Repr SModel StatsDict : Type} `{!ServerUtils SModel StatsDict}.
Implicit Types (s : State Repr StatsDict) (srv : Server SModel)
  (env : ServerEnv Repr) (cfg : Config).

Lemma stats_get_raises (key : string) (stats : Stats) e :
  stats_get key stats = Raise e → e = KeyError.
Proof.
  induction stats as [|[key' v] stats IH]; cbn [stats_get]; [congruence|].
  case_decide; [done|exact IH].
Qed.

Lemma mapM_stats_get_ok (key : string) (l : list Stats) :
  Forall (λ st, ∃ v, stats_get key st = Ok v) l →
  ∃ vs, mapM_result (stats_get key) l = Ok vs.
Proof.
  induction 1 as [|st l [v Hv] Hl [vs IH]]; [by eexists|].
  cbn [mapM_result]. rewrite Hv, IH. by eexists.
Qed.

Lemma mapM_stats_get_raise (key : string) (l : list Stats) :
  ¬ Forall (λ st, ∃ v, stats_get key st = Ok v) l →
  mapM_result (stats_get key) l = Raise KeyError.
Proof.
  induction l as [|st l IH]; intros Hn.
  - destruct Hn. constructor.
  - cbn [mapM_result].
    destruct (stats_get key st) as [v|e] eqn:Hst; result_step.
    + rewrite IH; [done|]. intros Hl. apply Hn. constructor; [by eexists|done].
    + by rewrite (stats_get_raises _ _ _ Hst).
Qed.

Lemma decide_forall_accuracy (key : string) (l : list Stats) :
  Forall (λ st, ∃ v, stats_get key st = Ok v) l
  ∨ ¬ Forall (λ st, ∃ v, stats_get key st = Ok v) l.
Proof.
  induction l as [|st l [IH|IH]].
  - left. constructor.
  - destruct (stats_get key st) as [v|e] eqn:Hst.
    + left. constructor; [by eexists|done].
    + right. intros [[v Hv] _]%Forall_cons. congruence.
  - right. intros [_ Hl]%Forall_cons. done.
Qed.

Lemma for_each_emit {A : Type} (f : A → Event Repr StatsDict) (xs : list A) s :
  for_each (λ x, emit (f x)) xs s =
  (Ok tt, {| best_acc := best_acc s; round := round s;
             trace := trace s ++ (f <$> xs) |}).
Proof.
  revert s. induction xs as [|x xs IH]; intros s.
  - destruct s. cbn. by rewrite app_nil_r.
  - cbn [for_each]. s_step. rewrite IH. cbn [best_acc round trace].
    by rewrite <- app_assoc.
Qed.

Lemma single_round_run env srv s :
  let round_stats := gather_stats env (round s) in
  let at_tr tr := {| best_acc := best_acc s; round := round s; trace := tr |} in
  single_round env srv s =
  match mapM_result (stats_get "test_acc_after_training") round_stats with
  | Raise e => (Raise e, at_tr (trace s ++ round_prefix env srv s))
  | Ok talt =>
      match mapM_result (stats_get "test_acc_before_training") round_stats with
      | Raise e =>
          (Raise e, at_tr (trace s ++ round_prefix env srv s ++
                           [LogConsole (RoundAcc "Round acc TALT" talt)]))
      | Ok tblt =>
          (Ok round_stats,
           at_tr (trace s ++ round_prefix env srv s ++
                  [LogConsole (RoundAcc "Round acc TALT" talt);
                   LogConsole (RoundAcc "Round acc TBLT" tblt)]))
      end
  end.
Proof.
  cbv zeta. unfold single_round, send_representations, round_prefix.
  cbv beta iota delta [mbind M_bind].
  rewrite (for_each_emit (λ c, Send c ROUND_START None)).
  s_step.
  rewrite (for_each_emit (λ c, Send c REPRS_SHARE (Some (gather_reprs env (round s))))).
  s_step.
  destruct (mapM_result (stats_get "test_acc_after_training") _) as [talt|e];
    [|by rewrite <- !app_assoc].
  s_step.
  destruct (mapM_result (stats_get "test_acc_before_training") _) as [tblt|e];
    s_step; by rewrite <- !app_assoc.
Qed.

Lemma test_run srv s :
  test srv s =
  (Ok (model_utils_test (smodel srv)).2,
   if Qgt_bool (model_utils_test (smodel srv)).2 (best_acc s) then
     {| best_acc := (model_utils_test (smodel srv)).2; round := round s;
        trace := trace s ++ [ModelTest; SaveModel (model_save_path srv)] |}
   else
     {| best_acc := best_acc s; round := round s;
        trace := trace s ++ [ModelTest] |}).
Proof.
  unfold test. destruct (model_utils_test (smodel srv)) as [loss a]. s_step.
  destruct (Qgt_bool a (best_acc s)); s_step; by rewrite <- ?app_assoc.
Qed.

Lemma Qgt_bool_false (a b : Q) : Qgt_bool a b = false ↔ (a <= b)%Q.
Proof. unfold Qgt_bool. by rewrite negb_false_iff, Qle_bool_iff. Qed.

(** [test] keeps a running maximum: after it, the best accuracy is at
    least what it was and at least the accuracy measured; testing the
    same model again measures, saves nothing and changes nothing else. *)
Theorem test_saves_only_on_improvement srv s :
  let acc := (model_utils_test (smodel srv)).2 in
  let s1 := (test srv s).2 in
  (best_acc s <= best_acc s1)%Q
  ∧ (acc <= best_acc s1)%Q
  ∧ test srv s1 =
    (Ok acc, {| best_acc := best_acc s1; round := round s1;
                trace := trace s1 ++ [ModelTest] |}).
Proof.
  cbv zeta. rewrite !test_run. cbn [snd].
  destruct (Qgt_bool _ (best_acc s)) eqn:Hgt; cbn [best_acc round trace].
  - apply Qgt_bool_true in Hgt. split; [by apply Qlt_le_weak|].
    split; [apply Qle_refl|].
    by rewrite (proj2 (Qgt_bool_false _ _) (Qle_refl _)).
  - split; [apply Qle_refl|]. split; [by apply Qgt_bool_false|].
    by rewrite Hgt.
Qed.

(** The coordinator signals every client, in the order of [users],
    before it gathers anything. *)
Theorem single_round_signals_all_first env srv s :
  ∃ rest,
    trace (single_round env srv s).2 =
    trace s ++ ((λ c, Send c ROUND_START None) <$> users srv) ++
    [LogConsole (Text "Server waiting for all clients to finish local training");
     AllGather REPR_ADVERT] ++ rest.
Proof.
  rewrite single_round_run. cbv zeta. unfold round_prefix.
  destruct (mapM_result (stats_get "test_acc_after_training") _) as [talt|e];
    [destruct (mapM_result (stats_get "test_acc_before_training") _) as [tblt|e]|];
    cbn [snd trace]; eexists; rewrite <- ?app_assoc; cbn [app]; reflexivity.
Qed.

(** When the stats gathered from some client lack one of the two
    accuracies, the round raises a [KeyError]; the stats have been logged
    by then, and the best accuracy is untouched. *)
Theorem single_round_missing_accuracy env srv s :
  ¬ Forall has_accuracies (gather_stats env (round s)) →
  ∃ evs,
    single_round env srv s =
    (Raise KeyError,
     {| best_acc := best_acc s; round := round s;
        trace := trace s ++ round_prefix env srv s ++ evs |}).
Proof.
  intros Hmissing. rewrite single_round_run. cbv zeta.
  destruct (decide_forall_accuracy "test_acc_after_training"
              (gather_stats env (round s))) as [Hafter|Hafter].
  - destruct (mapM_stats_get_ok _ _ Hafter) as [talt ->].
    rewrite mapM_stats_get_raise; [by eexists|].
    intros Hbefore. apply Hmissing.
    rewrite Forall_forall in Hafter, Hbefore |- *.
    intros st Hst. split; auto.
  - rewrite mapM_stats_get_raise by done. exists []. by rewrite app_nil_r.
Qed.

Lemma round_loop_run env srv (rs : list Z) : ∀ stats s,
  (∀ r, Forall has_accuracies (gather_stats env r)) →
  ∃ s', round_loop env srv stats rs s
        = (Ok (stats ++ (gather_stats env <$> rs)), s')
        ∧ best_acc s' = best_acc s
        ∧ round s' = default (round s) (last rs)
        ∧ ∃ evs, trace s' = trace s ++ evs.
Proof.
  induction rs as [|r rs IH]; intros stats s Hacc.
  - exists s. cbn [round_loop fmap list_fmap last default]. rewrite app_nil_r.
    split; [done|]. split; [done|]. split; [done|].
    exists []. by rewrite app_nil_r.
  - cbn [round_loop]. s_step.
    set (s1 := {| best_acc := best_acc s; round := r;
                  trace := trace s ++ [LogConsole (StartingRound r)] |}).
    rewrite (single_round_run env srv s1). cbv zeta. cbn [round s1].
    specialize (Hacc r) as Hr. rewrite Forall_forall in Hr.
    destruct (mapM_stats_get_ok "test_acc_after_training" (gather_stats env r))
      as [talt ->]; [apply Forall_forall; intros st Hst; apply (Hr st Hst)|].
    destruct (mapM_stats_get_ok "test_acc_before_training" (gather_stats env r))
      as [tblt ->]; [apply Forall_forall; intros st Hst; apply (Hr st Hst)|].
    match goal with |- context [round_loop env srv _ rs ?s2] =>
      destruct (IH (stats ++ [gather_stats env r]) s2 Hacc)
        as (s' & Hrun & Hbest & Hround & evs & Htrace) end.
    exists s'. rewrite Hrun. cbn [best_acc round trace] in *.
    split_and!.
    + by rewrite <- app_assoc.
    + done.
    + rewrite Hround, last_cons. by destruct (last rs).
    + rewrite Htrace. subst s1. cbn [trace]. rewrite <- !app_assoc.
      by eexists.
Qed.

(** With both accuracies present in the stats gathered in every round,
    the coordinator's run completes: it hands the history of the gathered
    stats, one entry per round in order and with [round_step] set to 1,
    to the experiment log and then to the plots, and these are its last
    two calls. *)
Theorem server_run_logs_history env cfg srv s :
  (∀ r, Forall has_accuracies (gather_stats env r)) →
  let rs := py_range (default 0 (start_round cfg)) (rounds cfg) in
  let stats_dict := set_round_step (to_dict_arrays (gather_stats env <$> rs)) 1 in
  ∃ s' evs,
    run_protocol env cfg srv s = (Ok tt, s')
    ∧ trace s' = trace s ++ evs ++
        [LogExperimentsStats stats_dict; PlotExperimentsStats stats_dict]
    ∧ round s' = default (round s) (last rs).
Proof.
  intros Hacc rs stats_dict. unfold run_protocol. s_step.
  match goal with |- context [round_loop env srv [] _ ?s1] =>
    destruct (round_loop_run env srv rs [] s1 Hacc)
      as (s' & Hrun & Hbest & Hround & evs & Htrace) end.
  fold rs. rewrite Hrun. s_step. cbn [app] in *.
  eexists. exists (LogConsole (Text "Starting random P2P collaboration") :: evs).
  split; [done|]. cbn [trace round] in *. split; [|done].
  rewrite Htrace, <- !app_assoc. done.
Qed.
End more_server_rounds.

(** ** The properties on the example configurations *)

#[local] Existing Instance example_trainer.
#[local] Existing Instance example_utils.
#[local] Existing Instance example_floats.

Import FedAssClient.

(** Node 1 under [fixed]: three collaborators, one third each. *)
Lemma weights_positive_sum_one_witness :
  let cw := [(1, (1 # 3)%Q); (2, (1 # 3)%Q); (3, (1 # 3)%Q)] in
  get_collaborator_weights (example_config "fixed" 3) 1 2 0 [] = Ok cw
  ∧ Forall (λ kw, (0 < kw.2)%Q) cw
  ∧ (sum_Q (PyDict.values cw) == 1)%Q
  ∧ (Qabs (sum_Q (PyDict.values cw) - 1) <= 1 # 1000000000)%Q.
Proof.
  intros cw.
  destruct (weights_positive_sum_one (example_config "fixed" 3) 1 2 0 [] cw)
    as (_ & Hpos & Hsum & _); [reflexivity|].
  split; [reflexivity|]. split; [exact Hpos|]. apply Hsum. discriminate.
Defined.

(** Node 3 under [fixed] has an empty assigned list: the result is the
    empty mapping, whose weights sum to 0. *)
Lemma empty_assignment_sums_to_zero :
  ∃ cw, get_collaborator_weights (example_config "fixed" 3) 3 2 0 [] = Ok cw
        ∧ ¬ (Qabs (sum_Q (PyDict.values cw) - 1) <= 1 # 1000000000)%Q.
Proof.
  exists []. split; [reflexivity|]. vm_compute. intros H. by apply H.
Qed.

(** Five nodes, node 1: rounds 0 and 2 both pair it with node 3. *)
Lemma direct_expo_weights_witness :
  get_collaborator_weights (example_config "direct_expo" 5) 1 2 0 []
    = Ok [(1, (1 # 2)%Q); (3, (1 # 2)%Q)]
  ∧ get_collaborator_weights (example_config "direct_expo" 5) 1 2 2 []
    = get_collaborator_weights (example_config "direct_expo" 5) 1 2 0 [].
Proof.
  apply (direct_expo_weights (example_config "direct_expo" 5) 1 2 0 []).
  - reflexivity.
  - cbn. lia.
  - compute_done.
  - compute_done.
Defined.

(** Node 2 under [fixed] is its own only collaborator: the round leaves
    the model 10 to the training step, which makes it 12, and reports. *)
Lemma skip_aggregation_witness :
  aggregate_step 2 (enumerate1 [10; 20; 30]) [(2, 1%Q)] example_state
    = (Ok tt, example_state)
  ∧ client_round example_env (example_config "fixed" 3) 2 0 example_state =
    (Ok tt,
     {| model := 12;
        trace :=
          [Receive ROUND_START; SendRepr REPR_ADVERT 10; Receive REPRS_SHARE;
           LocalTest; LocalTrain 2; LocalTest;
           SendStats ROUND_STATS
             [("test_acc_before_training", Scalar (inject_Z 10));
              ("train_loss", Scalar (1 # 2)%Q);
              ("train_acc", Scalar (inject_Z 12));
              ("test_acc_after_training", Scalar (inject_Z 12));
              ("collab_weights", Vector [0%Q; 1%Q; 0%Q])]] |}).
Proof.
  refine (skip_aggregation_for_singleton example_env (example_config "fixed" 3)
            2 0 example_state [(2, 1%Q)] _ _ _).
  - reflexivity.
  - reflexivity.
  - cbn. lia.
Defined.

(** Two nodes under [direct_expo]: the run stops inside round 0, after
    the exchange of representations, with a division by zero. *)
Lemma direct_expo_two_users_fails_mid_round :
  run_protocol example_env (example_config "direct_expo" 2) 1 example_state =
    (Raise ZeroDivisionError,
     {| model := 10;
        trace := [Receive ROUND_START; SendRepr REPR_ADVERT 10;
                  Receive REPRS_SHARE] |})
  ∧ ¬ rejected_before_rounds example_env (example_config "direct_expo" 2) 1
        example_state.
Proof.
  assert (run_protocol example_env (example_config "direct_expo" 2) 1
            example_state =
          (Raise ZeroDivisionError,
           {| model := 10;
              trace := [Receive ROUND_START; SendRepr REPR_ADVERT 10;
                        Receive REPRS_SHARE] |})) as Hrun by reflexivity.
  split; [exact Hrun|]. intros [e He]. rewrite Hrun in He. discriminate.
Qed.

Lemma direct_expo_few_users_witness :
  run_protocol example_env (example_config "direct_expo" 2) 1 example_state =
    (Raise ZeroDivisionError,
     {| model := 10;
        trace := [Receive ROUND_START; SendRepr REPR_ADVERT 10;
                  Receive REPRS_SHARE] |}).
Proof.
  apply (direct_expo_few_users_fails_in_first_round example_env
           (example_config "direct_expo" 2) 1 example_state).
  - reflexivity.
  - cbn. lia.
  - cbn. lia.
Defined.

(** An unknown strategy name: the run stops inside round 0, after the
    exchange of representations. *)
Lemma unknown_strategy_fails_mid_round :
  run_protocol example_env (example_config "gossip" 3) 1 example_state =
    (Raise (ValueError "Strategy not implemented"),
     {| model := 10;
        trace := [Receive ROUND_START; SendRepr REPR_ADVERT 10;
                  Receive REPRS_SHARE] |})
  ∧ ¬ rejected_before_rounds example_env (example_config "gossip" 3) 1
        example_state.
Proof.
  assert (run_protocol example_env (example_config "gossip" 3) 1 example_state =
          (Raise (ValueError "Strategy not implemented"),
           {| model := 10;
              trace := [Receive ROUND_START; SendRepr REPR_ADVERT 10;
                        Receive REPRS_SHARE] |})) as Hrun by reflexivity.
  split; [exact Hrun|]. intros [e He]. rewrite Hrun in He. discriminate.
Qed.

Lemma unknown_strategy_witness :
  run_protocol example_env (example_config "gossip" 3) 1 example_state =
    (Raise (ValueError "Strategy not implemented"),
     {| model := 10;
        trace := [Receive ROUND_START; SendRepr REPR_ADVERT 10;
                  Receive REPRS_SHARE] |}).
Proof.
  apply (unknown_strategy_fails_in_first_round example_env
           (example_config "gossip" 3) 1 example_state).
  - discriminate.
  - discriminate.
  - discriminate.
  - cbn. lia.
Defined.

(** Node 1 under [fixed]: assigned 1, 2 and 3, one third each. *)
Lemma fixed_weights_witness :
  ∃ cw, get_collaborator_weights (example_config "fixed" 3) 1 2 0 [] = Ok cw
    ∧ NoDup (PyDict.keys cw)
    ∧ (∀ id, id ∈ PyDict.keys cw ↔ id ∈ [1; 2; 3])
    ∧ Forall (λ kw, kw.2 = (1 # Pos.of_nat (length cw))%Q) cw
    ∧ (NoDup [1; 2; 3] →
       cw = [(1, (1 # 3)%Q); (2, (1 # 3)%Q); (3, (1 # 3)%Q)]).
Proof.
  refine (fixed_weights (example_config "fixed" 3) 1 2 0 [] [1; 2; 3] _ _).
  - reflexivity.
  - reflexivity.
Defined.

(** A coordinator whose model has accuracy 9/10 and best accuracy 0 runs
    one round: no evaluation happens, the best accuracy stays 0 and no
    checkpoint is saved. *)
Lemma server_run_does_not_track_best_accuracy :
  ¬ tracks_best_accuracy example_server_env (example_config "fixed" 3)
      example_server example_server_state.
Proof.
  unfold tracks_best_accuracy. intros H.
  destruct H as [Hbest _]; [cbn; lia|reflexivity|].
  vm_compute in Hbest. discriminate.
Qed.

(** Five nodes, node 1 under [direct_expo]: the reported vector is
    [1/2, 0, 1/2, 0, 0]. *)
Lemma report_collab_weights_witness :
  ∃ vec,
    collab_weight_vector 5 [(1, (1 # 2)%Q); (3, (1 # 2)%Q)] = Ok vec
    ∧ length vec = 5%nat
    ∧ (∀ k w, (k, w) ∈ [(1, (1 # 2)%Q); (3, (1 # 2)%Q)] →
              vec !! Z.to_nat (k - 1) = Some w)
    ∧ (∀ k, 1 ≤ k ≤ 5 → k ∉ [1; 3] → vec !! Z.to_nat (k - 1) = Some 0%Q)
    ∧ stats_get "collab_weights"
        (stats_set "collab_weights" (Vector vec) []) = Ok (Vector vec)
    ∧ report_step (example_config "direct_expo" 5)
        [(1, (1 # 2)%Q); (3, (1 # 2)%Q)] [] example_state =
      (Ok tt,
       {| model := 10;
          trace := [SendStats ROUND_STATS [("collab_weights", Vector vec)]] |}).
Proof.
  refine (report_collab_weights (example_config "direct_expo" 5) 1 2 0 []
            [(1, (1 # 2)%Q); (3, (1 # 2)%Q)] [] example_state _ _ _).
  - reflexivity.
  - cbn. lia.
  - compute_done.
Defined.


(** Node 1 under [random_among_assigned], two of its three assigned
    nodes drawn at positions 0 and 2: the sample is 1 and 3, it contains
    the node, and the result has two keys of weight one half. *)
Lemma random_among_assigned_weights_witness :
  ∃ cw, get_collaborator_weights (example_config "random_among_assigned" 3)
          1 2 0 [0; 2]%nat = Ok cw ∧
    (1 ∈ [1; 3] →
       PyDict.keys cw = [1; 3] ∧ Z.of_nat (length cw) = 2 ∧
       Forall (λ kw, kw.2 = (1 # 2)%Q) cw) ∧
    (1 ∉ [1; 3] →
       PyDict.keys cw = [1; 3] ++ [1] ∧ Z.of_nat (length cw) = 2 + 1 ∧
       Forall (λ kw, kw.2 = (1 # 3)%Q) cw).
Proof.
  refine (random_among_assigned_weights
            (example_config "random_among_assigned" 3) 1 2 0 [0; 2]%nat
            [1; 2; 3] _ _ _ _).
  - reflexivity.
  - reflexivity.
  - compute_done.
  - unfold valid_draw. split_and!; compute_done.
Defined.

(** ** The further properties on the example configurations *)

Lemma weights_uniform_witness :
  let cw := [(1, (1 # 3)%Q); (2, (1 # 3)%Q); (3, (1 # 3)%Q)] in
  NoDup (PyDict.keys cw)
  ∧ Forall (λ kw, kw.2 = (1 # Pos.of_nat (length cw))%Q) cw.
Proof.
  refine (weights_uniform (example_config "fixed" 3) 1 2 0 [] _ _).
  reflexivity.
Defined.

(** Node 7 has no entry in the assignment. *)
Lemma missing_assignment_witness :
  get_collaborator_weights (example_config "fixed" 3) 7 2 0 [] = Raise KeyError.
Proof.
  refine (missing_assignment_raises_KeyError (example_config "fixed" 3) 7 2 0 []
            _ _).
  - by left.
  - compute_done.
Defined.

(** Five collaborators asked of a node that has three assigned. *)
Lemma random_sample_size_witness :
  ∃ msg, get_collaborator_weights (example_config "random_among_assigned" 3)
           1 5 0 [0; 1]%nat = Raise (ValueError msg).
Proof.
  refine (random_sample_size_rejected (example_config "random_among_assigned" 3)
            1 5 0 [0; 1]%nat [1; 2; 3] _ _ _).
  - reflexivity.
  - reflexivity.
  - left. cbn. lia.
Defined.

(** Node 2 is assigned itself only. *)
Lemma fixed_skips_witness :
  (collaborators [(2, 1%Q)] = [2] ↔ [2] ≠ [] ∧ ∀ id, id ∈ [2] → id = 2)
  ∧ ([2] = [] → collaborators [(2, 1%Q)] = []
                ∧ only_self 2 (collaborators [(2, 1%Q)]) = false).
Proof.
  refine (fixed_skips_iff_assigned_only_self (example_config "fixed" 3) 2 2 0 []
            [2] [(2, 1%Q)] _ _ _); reflexivity.
Defined.

(** Node 1, positions 1 and 2 drawn: the sample is 2 and 3, and the node
    is added. *)
Lemma random_keys_witness :
  ∃ cw, get_collaborator_weights (example_config "random_among_assigned" 3)
          1 2 0 [1; 2]%nat = Ok cw
    ∧ 1 ∈ PyDict.keys cw
    ∧ (∀ k, k ∈ PyDict.keys cw → k = 1 ∨ k ∈ [1; 2; 3])
    ∧ Z.of_nat (length cw) ≤ 2 + 1.
Proof.
  refine (random_keys_self_and_assigned
            (example_config "random_among_assigned" 3) 1 2 0 [1; 2]%nat
            [1; 2; 3] _ _ _).
  - reflexivity.
  - reflexivity.
  - unfold valid_draw. split_and!; compute_done.
Defined.

(** Five nodes: rounds 0 and 1 pair node 1 with nodes 3 and 4. *)
Lemma direct_expo_peers_differ_witness :
  get_collaborator_weights (example_config "direct_expo" 5) 1 2 0 []
  ≠ get_collaborator_weights (example_config "direct_expo" 5) 1 2 1 [].
Proof.
  refine (direct_expo_peers_differ_within_period
            (example_config "direct_expo" 5) 1 2 0 1 [] _ _ _ _ _).
  - reflexivity.
  - cbn. lia.
  - compute_done.
  - compute_done.
  - vm_compute. discriminate.
Defined.

Lemma collab_weight_vector_indexable_witness :
  (Forall (indexable 3) (PyDict.keys [(0, (1 # 2)%Q); (4, (1 # 2)%Q)]) →
   ∃ vec, collab_weight_vector 3 [(0, (1 # 2)%Q); (4, (1 # 2)%Q)] = Ok vec
          ∧ length vec = 3%nat)
  ∧ (¬ Forall (indexable 3) (PyDict.keys [(0, (1 # 2)%Q); (4, (1 # 2)%Q)]) →
     collab_weight_vector 3 [(0, (1 # 2)%Q); (4, (1 # 2)%Q)] = Raise IndexError).
Proof.
  refine (collab_weight_vector_indexable 3 [(0, (1 # 2)%Q); (4, (1 # 2)%Q)] _).
  lia.
Defined.

(** Three nodes, collaborators 0 and 1: the weight of 0 lands in the last
    position. *)
Lemma collab_weight_vector_slots_witness :
  ∃ vec, collab_weight_vector 3 [(0, (1 # 2)%Q); (1, (1 # 2)%Q)] = Ok vec
    ∧ length vec = 3%nat
    ∧ (∀ k w, (k, w) ∈ [(0, (1 # 2)%Q); (1, (1 # 2)%Q)] →
              vec !! slot 3 k = Some w)
    ∧ (∀ i, (i < 3)%nat → i ∉ [2; 0]%nat → vec !! i = Some 0%Q).
Proof.
  refine (collab_weight_vector_slots 3 [(0, (1 # 2)%Q); (1, (1 # 2)%Q)] _ _ _).
  - lia.
  - unfold indexable. repeat constructor; cbn; lia.
  - compute_done.
Defined.

(** Two nodes only, while node 1 is assigned 1, 2 and 3: the round
    aggregates, trains and then fails on the entry for node 3. *)
Lemma round_fails_at_report_witness :
  client_round example_env (example_config "fixed" 2) 1 0 example_state =
  (Raise IndexError,
   {| model := 62;
      trace :=
        [Receive ROUND_START; SendRepr REPR_ADVERT 10; Receive REPRS_SHARE;
         Aggregate [(1, 10); (2, 20); (3, 30)]
           [(1, (1 # 3)%Q); (2, (1 # 3)%Q); (3, (1 # 3)%Q)];
         SetModelWeights 60;
         LocalTest; LocalTrain 2; LocalTest] |}).
Proof.
  refine (round_fails_at_report_after_training example_env
            (example_config "fixed" 2) 1 0 example_state
            [(1, (1 # 3)%Q); (2, (1 # 3)%Q); (3, (1 # 3)%Q)] _ _ _).
  - reflexivity.
  - cbn. lia.
  - intros Hall. unfold indexable in Hall.
    apply Forall_cons in Hall as [_ Hall]. apply Forall_cons in Hall as [_ Hall].
    apply Forall_cons in Hall as [H3 _]. cbn in H3. lia.
Defined.


Lemma random_zero_collaborators_witness :
  get_collaborator_weights (example_config "random_among_assigned" 3) 1 0 0 []
    = Ok [(1, 1%Q)]
  ∧ ∀ (reprs_dict : PyDict.t Z) s,
      aggregate_step 1 reprs_dict [(1, 1%Q)] s = (Ok tt, s).
Proof.
  refine (random_zero_collaborators_skips
            (example_config "random_among_assigned" 3) 1 0 [] [1; 2; 3] _ _ _).
  - reflexivity.
  - reflexivity.
  - unfold valid_draw. split_and!; compute_done.
Defined.

Lemma completed_round_reports_witness :
  ∃ stats vec,
    last (trace (client_round example_env (example_config "fixed" 3) 2 0
                   example_state).2)
      = Some (SendStats ROUND_STATS stats)
    ∧ stats.*1 = ["test_acc_before_training"; "train_loss"; "train_acc";
                  "test_acc_after_training"; "collab_weights"]
    ∧ stats_get "collab_weights" stats = Ok (Vector vec)
    ∧ length vec = 3%nat
    ∧ has_accuracies stats.
Proof.
  refine (completed_round_reports_full_stats example_env
            (example_config "fixed" 3) 2 0 example_state _ _).
  reflexivity.
Defined.

Lemma single_round_missing_accuracy_witness :
  ∃ evs,
    FedAssServer.single_round example_server_env_missing example_server
      example_server_state =
    (Raise KeyError,
     {| FedAssServer.best_acc := 0%Q; FedAssServer.round := 0;
        FedAssServer.trace :=
          round_prefix example_server_env_missing example_server
            example_server_state ++ evs |}).
Proof.
  refine (single_round_missing_accuracy example_server_env_missing
            example_server example_server_state _).
  intros Hall. apply Forall_cons in Hall as [[[v Hv] _] _]. discriminate.
Defined.

Lemma server_run_logs_history_witness :
  let d := [ [ [("test_acc_before_training", Scalar 0%Q);
                ("test_acc_after_training", Scalar 1%Q)] ] ] in
  ∃ s' evs,
    FedAssServer.run_protocol example_server_env (example_config "fixed" 3)
      example_server example_server_state = (Ok tt, s')
    ∧ FedAssServer.trace s' =
        evs ++ [FedAssServer.LogExperimentsStats d;
                FedAssServer.PlotExperimentsStats d]
    ∧ FedAssServer.round s' = 0.
Proof.
  refine (server_run_logs_history example_server_env (example_config "fixed" 3)
            example_server example_server_state _).
  intros r. repeat constructor; by eexists.
Defined.
